(** * Arbitrage bot: detection, validation and execution pipeline

    A shallow embedding of the Python sources
      - python/arbitrage_monitor.py        (class ArbitrageMonitor)
      - python/smart_contract_interaction.py (class SmartContractInterface)
      - python/integrated_arbitrage_bot.py (class IntegratedArbitrageBot)
      - python/utils/logger.py             (class ArbitrageLogger)

    The monitor and the coordinator are embedded twice.

    The modules [ArbitrageMonitor] and [IntegratedArbitrageBot] follow the
    algorithms: a float is an exact rational [Q], [from_wei] is an exact
    division, the two names the files read without binding them
    ([UNISWAP_ROUTER_ABI], [datetime]) are taken as bound, and
    [execute_opportunity] is taken from its balance check on.  They carry
    the properties that hold of the files either way: what a failed quote
    returns, what a snapshot without a spread yields, the bounds of the
    confidence formula, the tables of [get_token_prices], the risk levels
    and the loop of [run_bot].  The logger is embedded once, in the same
    arithmetic.

    The module [AsWritten] follows the files as the interpreter runs them:
    numbers are Python's ints and doubles (round to nearest, ties to even,
    with infinities and not-a-number), reading an unbound name raises
    NameError, and [from_wei] returns a [Decimal], whose product with a
    float raises TypeError.  It carries the properties on which the two
    differ: which Opportunity records are built and with what figures, the
    validation test, and execution.

    Conventions common to both.
      - Python [int] is [Z]; values read from the chain are [uint256] and are
        typed [N].
      - A call that may raise is a [result]; [try ... except Exception] is a
        match on it.  The kind of the exception is not kept.
      - The chain node, the routers and the executor contract are external:
        they are the fields of a [Chain] record that answers each call.
      - Log lines are kept only where a property talks about them (the
        [event] trace of the coordinator). *)

From Stdlib Require Import ZArith QArith Qabs Qminmax Qround Qpower Lia Lqa Ascii String List.
From stdpp Require Import gmap strings.
Import ListNotations.

Local Open Scope Z_scope.

(** ** Python values and exceptions *)

Inductive result (A : Type) : Type :=
| Returned (a : A)
| Raised.
Arguments Returned {A} a.
Arguments Raised {A}.

Definition bind {A B} (r : result A) (k : A -> result B) : result B :=
  match r with
  | Returned a => k a
  | Raised => Raised
  end.

Notation "x <- r ;; k" := (bind r (fun x => k))
  (at level 100, r at next level, right associativity).

(** [a / b] on numbers: ZeroDivisionError when [b] is zero. *)
Definition truediv (a b : Q) : result Q :=
  if Qeq_bool b 0 then Raised else Returned (a / b)%Q.

(** [int(x)]: truncation toward zero. *)
Definition py_int (x : Q) : Z := Z.quot (Qnum x) (Z.pos (Qden x)).

(** [a < b] on numbers. *)
Definition Qltb (a b : Q) : bool := negb (Qle_bool b a).

(** [seq[i]]: IndexError when out of range. *)
Definition index {A} (l : list A) (i : nat) : result A :=
  match nth_error l i with
  | Some a => Returned a
  | None => Raised
  end.

(** [str.lower()] on ASCII text. *)
Definition lower_ascii (c : ascii) : ascii :=
  let n := nat_of_ascii c in
  if (65 <=? n)%nat && (n <=? 90)%nat then ascii_of_nat (n + 32) else c.

Fixpoint lower (s : string) : string :=
  match s with
  | EmptyString => EmptyString
  | String c s' => String (lower_ascii c) (lower s')
  end.

(** ** Python floats *)

(** The integer nearest to [x], a tie going to the even one. *)
Definition round_half_even (x : Q) : Z :=
  let q := Qfloor x in
  match (x - inject_Z q ?= 1 # 2)%Q with
  | Lt => q
  | Gt => q + 1
  | Eq => if Z.even q then q else q + 1
  end.

(** For a positive [x], the exponent [l] with [2^l <= x < 2^(l+1)]. *)
Definition Qlog2 (x : Q) : Z :=
  let l := Z.log2 (Qnum x) - Z.log2 (Z.pos (Qden x)) in
  if Qltb x (2 ^ l) then l - 1 else l.

(** The exponent of the last bit a double keeps of [x]: 53 significant
    bits, and nothing below [2^-1074]. *)
Definition ulp_exponent (x : Q) : Z := Z.max (Qlog2 (Qabs x) - 52) (-1074).

(** [x] rounded to the nearest multiple of its last bit, a tie going to the
    even multiple; the exponent is not bounded above. *)
Definition binary64 (x : Q) : Q :=
  let ulp := (2 ^ ulp_exponent x)%Q in
  Qred (inject_Z (round_half_even (x / ulp)) * ulp).

(** A [float]: a finite double as the rational it denotes, an infinity, or
    not-a-number.  The sign of a zero is not kept. *)
Inductive float : Type :=
| Finite (q : Q)
| Infinity (negative : bool)
| NaN.

(** The double nearest to a rational (IEEE 754 round-to-nearest-even): an
    infinity from [2^1024] on. *)
Definition nearest_float (x : Q) : float :=
  let r := binary64 x in
  if Qle_bool (inject_Z (2 ^ 1024)) (Qabs r) then Infinity (Qltb r 0) else Finite r.

Definition float_is_zero (a : float) : bool :=
  match a with
  | Finite q => Qeq_bool q 0
  | _ => false
  end.

Definition float_sign (a : float) : bool :=
  match a with
  | Finite q => Qltb q 0
  | Infinity negative => negative
  | NaN => false
  end.

(** [-a] and [abs(a)] *)
Definition float_neg (a : float) : float :=
  match a with
  | Finite q => Finite (- q)
  | Infinity negative => Infinity (negb negative)
  | NaN => NaN
  end.

Definition float_abs (a : float) : float :=
  match a with
  | Finite q => Finite (Qabs q)
  | Infinity _ => Infinity false
  | NaN => NaN
  end.

(** [a + b], [a - b], [a * b]: never an exception. *)
Definition float_add (a b : float) : float :=
  match a, b with
  | NaN, _ | _, NaN => NaN
  | Infinity s, Infinity t => if Bool.eqb s t then Infinity s else NaN
  | Infinity s, Finite _ | Finite _, Infinity s => Infinity s
  | Finite x, Finite y => nearest_float (x + y)
  end.

Definition float_sub (a b : float) : float := float_add a (float_neg b).

Definition float_mul (a b : float) : float :=
  match a, b with
  | NaN, _ | _, NaN => NaN
  | Finite x, Finite y => nearest_float (x * y)
  | _, _ =>
      if float_is_zero a || float_is_zero b then NaN
      else Infinity (xorb (float_sign a) (float_sign b))
  end.

(** [a / b]: ZeroDivisionError when [b] is zero. *)
Definition float_truediv (a b : float) : result float :=
  if float_is_zero b then Raised
  else
    Returned
      match a, b with
      | NaN, _ | _, NaN => NaN
      | Infinity _, Infinity _ => NaN
      | Infinity s, Finite y => Infinity (xorb s (Qltb y 0))
      | Finite _, Infinity _ => Finite 0
      | Finite x, Finite y => nearest_float (x / y)
      end.

(** [a < b], [a <= b], [a == b]: false as soon as one side is not-a-number. *)
Definition float_lt (a b : float) : bool :=
  match a, b with
  | NaN, _ | _, NaN => false
  | Finite x, Finite y => Qltb x y
  | Infinity true, Infinity true => false
  | Infinity true, _ => true
  | _, Infinity true => false
  | Infinity false, _ => false
  | _, Infinity false => true
  end.

Definition float_eq (a b : float) : bool :=
  match a, b with
  | Finite x, Finite y => Qeq_bool x y
  | Infinity s, Infinity t => Bool.eqb s t
  | _, _ => false
  end.

Definition float_le (a b : float) : bool := float_lt a b || float_eq a b.

(** [min(a, b)]: the first argument unless the second is strictly
    smaller. *)
Definition float_min (a b : float) : float := if float_lt b a then b else a.

(** [int(a)]: truncation toward zero; OverflowError on an infinity,
    ValueError on not-a-number. *)
Definition int_of_float (a : float) : result Z :=
  match a with
  | Finite q => Returned (py_int q)
  | _ => Raised
  end.

(** [float(z)]; OverflowError when [z] is too large. *)
Definition float_of_int (z : Z) : result float :=
  match nearest_float (inject_Z z) with
  | Finite q => Returned (Finite q)
  | _ => Raised
  end.

(** [x / y] on two ints: the double nearest to the quotient;
    ZeroDivisionError, or OverflowError when the quotient is too large. *)
Definition int_truediv (x y : Z) : result float :=
  if y =? 0 then Raised
  else
    match nearest_float (inject_Z x / inject_Z y) with
    | Finite q => Returned (Finite q)
    | _ => Raised
    end.

(** A Python number: an [int] or a [float]. *)
Inductive num : Type :=
| Int (z : Z)
| Float (f : float).

(** The value of a number, without rounding. *)
Definition exact (a : num) : float :=
  match a with
  | Int z => Finite (inject_Z z)
  | Float f => f
  end.

(** The operand of mixed arithmetic as a float. *)
Definition to_float (a : num) : result float :=
  match a with
  | Int z => float_of_int z
  | Float f => Returned f
  end.

(** Comparisons compare the exact values, also between an int and a float. *)
Definition num_lt (a b : num) : bool := float_lt (exact a) (exact b).
Definition num_le (a b : num) : bool := float_le (exact a) (exact b).
Definition num_eq (a b : num) : bool := float_eq (exact a) (exact b).

(** Truth value of a number: zero is false. *)
Definition num_truthy (a : num) : bool := negb (num_eq a (Int 0)).

(** [a + b], [a - b], [a * b]: exact on two ints, otherwise on floats. *)
Definition num_add (a b : num) : result num :=
  match a, b with
  | Int x, Int y => Returned (Int (x + y))
  | _, _ => fa <- to_float a ;; fb <- to_float b ;; Returned (Float (float_add fa fb))
  end.

Definition num_sub (a b : num) : result num :=
  match a, b with
  | Int x, Int y => Returned (Int (x - y))
  | _, _ => fa <- to_float a ;; fb <- to_float b ;; Returned (Float (float_sub fa fb))
  end.

Definition num_mul (a b : num) : result num :=
  match a, b with
  | Int x, Int y => Returned (Int (x * y))
  | _, _ => fa <- to_float a ;; fb <- to_float b ;; Returned (Float (float_mul fa fb))
  end.

(** [a / b] *)
Definition num_truediv (a b : num) : result float :=
  match a, b with
  | Int x, Int y => int_truediv x y
  | _, _ => fa <- to_float a ;; fb <- to_float b ;; float_truediv fa fb
  end.

(** [abs(a)] *)
Definition num_abs (a : num) : num :=
  match a with
  | Int z => Int (Z.abs z)
  | Float f => Float (float_abs f)
  end.

(** [max(a, b)]: the first argument unless the second is strictly larger. *)
Definition num_max (a b : num) : num := if num_lt a b then b else a.

(** [int(a)] *)
Definition int_of_num (a : num) : result Z :=
  match a with
  | Int z => Returned z
  | Float f => int_of_float f
  end.

(** ** config.py *)

Definition TOKENS_WETH : string := "0xfFf9976782d46CC05630D1f6eBAb18b2324d6B14".
Definition TOKENS_USDC : string := "0x94a9D9AC8a22534E3FaCa9F4e7F2E2cf85d5E4C8".
Definition TOKENS_USDT : string := "0x7169D38820dfd117C3FA1f22a697dBA58d90BA06".

Definition ROUTERS_UNISWAP_V2 : string := "0xC532A74256D3db4d4444457e8D5c9C7B6e1c3c6A".
Definition ROUTERS_SUSHISWAP : string := "0x1b02dA8Cb0d097eB8D57A175b88c7D8b47997506".

Definition CONFIDENCE_THRESHOLD : Q := 7 # 10.

(** ** The data model *)

Record ArbitrageOpportunity : Type := mkOpportunity {
  token_a : string;
  token_b : string;
  amount_in : Z;
  expected_profit : Q;
  gas_cost : Z;
  net_profit : Q;
  router1 : string;
  router2 : string;
  reverse_order : bool;
  confidence_score : Q
}.

(** The external collaborators, as the answers they give. *)
Record Chain : Type := mkChain {
  (** [w3.to_checksum_address(addr)] *)
  to_checksum_address : string -> result string;
  (** [router.functions.getAmountsOut(amount_in, path).call()] on the router
      at the given address *)
  getAmountsOut : string -> Z -> list string -> result (list N);
  (** [w3.eth.gas_price] *)
  gas_price : N;
  (** [contract.functions.checkArbitrageOpportunity(...).call()] *)
  checkArbitrageOpportunity :
    string -> string -> Z -> string -> string -> bool -> result N;
  (** [contract.functions.getTokenBalance(token).call()] *)
  getTokenBalance : string -> result N;
  (** build, sign, send [executeArbitrage(...)] and wait for the receipt:
      the receipt's [status], or an exception anywhere on the way *)
  executeArbitrage :
    string -> string -> Z -> string -> string -> bool -> result Z
}.

(** ** arbitrage_monitor.py *)

Module ArbitrageMonitor.

(** Risk management parameters set by [__init__]. *)
Definition min_profit_threshold : Q := 1 # 1000.
Definition max_slippage : Q := 3 # 100.
Definition max_gas_price : Z := 50.
Definition min_liquidity : Q := 10000.

Definition routers_uniswap : string := "0xeE567Fe1712Faf6149d80dA1E6934E354124CfE3".
Definition routers_sushiswap : string := "0xeaBcE3E74EF41FB40024a21Cc2ee2F5dDc615791".

(** [Web3.to_wei(1, 'ether')] *)
Definition one_ether : Z := 10 ^ 18.

(** [_fetch_dex_price]: the argument is the outcome of
    [router_contract.functions.getAmountsOut(amount_in, path).call()]. *)
Definition _fetch_dex_price (call : result (list N)) (amount_in : Z) : Q :=
  match (amounts <- call ;;
         a1 <- index amounts 1 ;;
         truediv (inject_Z (Z.of_N a1)) (inject_Z amount_in)) with
  | Returned p => p
  | Raised => 0%Q
  end.

(** [_estimate_gas_cost] *)
Definition _estimate_gas_cost (ch : Chain) : Z :=
  let gas_limit := 200000 in
  let gas_cost_wei := gas_limit * Z.of_N (gas_price ch) in
  let gas_cost_eth := (inject_Z gas_cost_wei / inject_Z (10 ^ 18))%Q in
  py_int (gas_cost_eth * inject_Z (10 ^ 18))%Q.

(** [6 if token_b.lower() in [USDC.lower(), USDT.lower()] else 18] *)
Definition decimals_for (token_b : string) : Z :=
  if orb (String.eqb (lower token_b) (lower TOKENS_USDC))
         (String.eqb (lower token_b) (lower TOKENS_USDT))
  then 6 else 18.

(** The body of the [try] block of [get_current_prices]. *)
Definition get_current_prices_try (ch : Chain) (token_pair : string * string)
  : result (Q * Q) :=
  let '(token_a, token_b) := token_pair in
  let amount_in := one_ether in
  ca <- to_checksum_address ch token_a ;;
  cb <- to_checksum_address ch token_b ;;
  let path := [ca; cb] in
  uni_router <- to_checksum_address ch routers_uniswap ;;
  uni_amounts <- getAmountsOut ch uni_router amount_in path ;;
  let uni_decimals := decimals_for token_b in
  uni_out <- index uni_amounts 1 ;;
  uni_price <- truediv (inject_Z (Z.of_N uni_out)) (inject_Z (10 ^ uni_decimals)) ;;
  sushi_router <- to_checksum_address ch routers_sushiswap ;;
  sushi_amounts <- getAmountsOut ch sushi_router amount_in path ;;
  let sushi_decimals := decimals_for token_b in
  sushi_out <- index sushi_amounts 1 ;;
  sushi_price <- truediv (inject_Z (Z.of_N sushi_out)) (inject_Z (10 ^ sushi_decimals)) ;;
  Returned (uni_price, sushi_price).

(** [get_current_prices]: any exception becomes [(0.0, 0.0)]. *)
Definition get_current_prices (ch : Chain) (token_pair : string * string) : Q * Q :=
  match get_current_prices_try ch token_pair with
  | Returned prices => prices
  | Raised => (0%Q, 0%Q)
  end.

(** One iteration of the loop of [monitor_opportunities], from the sampled
    prices on: the opportunities to append, or the exception that escapes. *)
Definition evaluate_prices (ch : Chain) (token_a token_b : string)
           (uni_price sushi_price : Q) : result (list ArbitrageOpportunity) :=
  let price_diff := Qabs (uni_price - sushi_price) in
  if Qltb 0 price_diff then
    let amount_in := 1000000000000000000 in
    q <- truediv (price_diff * inject_Z amount_in) (Qmin uni_price sushi_price) ;;
    let expected_profit := py_int q in
    let gas_cost := _estimate_gas_cost ch in
    if gas_cost <? expected_profit then
      Returned [ {| token_a := token_a;
                    token_b := token_b;
                    amount_in := amount_in;
                    expected_profit := inject_Z expected_profit;
                    gas_cost := gas_cost;
                    net_profit := inject_Z (expected_profit - gas_cost);
                    router1 := routers_uniswap;
                    router2 := routers_sushiswap;
                    reverse_order := Qltb sushi_price uni_price;
                    confidence_score := 9 # 10 |} ]
    else Returned []
  else Returned [].

(** The values of the [prices] dictionary: a dictionary with the keys
    ['price'], ['liquidity'] and ['symbol'], each of which may be missing. *)
Record PriceEntry : Type := mkPriceEntry {
  price : option Q;
  liquidity : option Q;
  symbol : option string
}.

(** [prices.get(key, {}).get('price', 0)] *)
Definition get_price (prices : gmap string PriceEntry) (key : string) : Q :=
  match prices !! key with
  | Some e => match price e with Some p => p | None => 0%Q end
  | None => 0%Q
  end.

(** [prices.get(key, {}).get('liquidity', 0)] *)
Definition get_liquidity (prices : gmap string PriceEntry) (key : string) : Q :=
  match prices !! key with
  | Some e => match liquidity e with Some l => l | None => 0%Q end
  | None => 0%Q
  end.

(** Truth value of a number: zero is false. *)
Definition truthy (x : Q) : bool := negb (Qeq_bool x 0).

(** [_calculate_confidence_score] *)
Definition _calculate_confidence_score (token_a token_b : string)
           (prices : gmap string PriceEntry) (profit : Q) : Q :=
  let uniswap_liquidity_a := get_liquidity prices ("uniswap_v2_" +:+ token_a) in
  let sushiswap_liquidity_a := get_liquidity prices ("sushiswap_" +:+ token_a) in
  let total_liquidity := (uniswap_liquidity_a + sushiswap_liquidity_a)%Q in
  let liquidity_score := Qmin (total_liquidity / min_liquidity) 1 in
  let profit_score :=
    Qmin (profit / (min_profit_threshold * inject_Z (10 ^ 18) * 10)) 1 in
  let confidence := (liquidity_score * (6 # 10) + profit_score * (4 # 10))%Q in
  confidence.

(** [calculate_arbitrage_opportunity]; [None] is Python's [None]. *)
Definition calculate_arbitrage_opportunity (ch : Chain) (token_a token_b : string)
           (amount_in : Z) (prices : gmap string PriceEntry)
  : result (option ArbitrageOpportunity) :=
  let uniswap_a_price := get_price prices ("uniswap_v2_" +:+ token_a) in
  let uniswap_b_price := get_price prices ("uniswap_v2_" +:+ token_b) in
  let sushiswap_a_price := get_price prices ("sushiswap_" +:+ token_a) in
  let sushiswap_b_price := get_price prices ("sushiswap_" +:+ token_b) in
  if negb (forallb truthy [uniswap_a_price; uniswap_b_price;
                           sushiswap_a_price; sushiswap_b_price])
  then Returned None
  else
    uniswap_rate <- (if Qltb 0 uniswap_a_price
                     then truediv uniswap_b_price uniswap_a_price
                     else Returned 0%Q) ;;
    sushiswap_rate <- (if Qltb 0 sushiswap_a_price
                       then truediv sushiswap_b_price sushiswap_a_price
                       else Returned 0%Q) ;;
    if Qeq_bool uniswap_rate 0 || Qeq_bool sushiswap_rate 0
    then Returned None
    else
      branch <-
        (if Qltb sushiswap_rate uniswap_rate then
           let amount_out_sushi := (inject_Z amount_in * sushiswap_rate)%Q in
           amount_out_uni <- truediv amount_out_sushi uniswap_rate ;;
           Returned ((amount_out_uni - inject_Z amount_in)%Q,
                     "sushiswap"%string, "uniswap_v2"%string, true)
         else
           let amount_out_uni := (inject_Z amount_in * uniswap_rate)%Q in
           amount_out_sushi <- truediv amount_out_uni sushiswap_rate ;;
           Returned ((amount_out_sushi - inject_Z amount_in)%Q,
                     "uniswap_v2"%string, "sushiswap"%string, true)) ;;
      let '(profit, router1, router2, reverse_order) := branch in
      if Qle_bool profit 0 then Returned None
      else
        let gas_cost := _estimate_gas_cost ch in
        let net_profit := (profit - inject_Z gas_cost)%Q in
        if Qltb net_profit min_profit_threshold then Returned None
        else
          let confidence := _calculate_confidence_score token_a token_b prices profit in
          Returned (Some {| token_a := token_a;
                            token_b := token_b;
                            amount_in := amount_in;
                            expected_profit := profit;
                            gas_cost := gas_cost;
                            net_profit := net_profit;
                            router1 := router1;
                            router2 := router2;
                            reverse_order := reverse_order;
                            confidence_score := confidence |}).

(** The loop of [monitor_opportunities] with its accumulator. *)
Fixpoint monitor_loop (ch : Chain) (token_pairs : list (string * string))
         (opportunities : list ArbitrageOpportunity)
  : result (list ArbitrageOpportunity) :=
  match token_pairs with
  | [] => Returned opportunities
  | (token_a, token_b) :: rest =>
      let '(uni_price, sushi_price) := get_current_prices ch (token_a, token_b) in
      found <- evaluate_prices ch token_a token_b uni_price sushi_price ;;
      monitor_loop ch rest (opportunities ++ found)
  end.

(** [monitor_opportunities] (the code up to its first [return]). *)
Definition monitor_opportunities (ch : Chain) (token_pairs : list (string * string))
  : result (list ArbitrageOpportunity) :=
  monitor_loop ch token_pairs [].

(** [s[-4:]]: the last four characters, or all of them when there are fewer. *)
Definition last4 (s : string) : string :=
  substring (String.length s - 4) 4 s.

(** [path = [checksum(token_address), checksum(token_addresses[0])]] *)
Definition build_path (ch : Chain) (token_address first : string) : result (list string) :=
  ca <- to_checksum_address ch token_address ;;
  c0 <- to_checksum_address ch first ;;
  Returned [ca; c0].

(** The rest of either [try] block of [get_token_prices] once the path is
    at hand: the router contract, the call, and the entry to store. *)
Definition quote_entry (ch : Chain) (router : string) (path : result (list string))
           (token_address : string) : result PriceEntry :=
  let amount_in := one_ether in
  r <- to_checksum_address ch router ;;
  p <- path ;;
  amounts <- getAmountsOut ch r amount_in p ;;
  a1 <- index amounts 1 ;;
  q <- truediv (inject_Z (Z.of_N a1)) (inject_Z amount_in) ;;
  Returned {| price := Some q; liquidity := Some 1%Q; symbol := Some (last4 token_address) |}.

(** Reading the local variable [path]: unbound until first assigned. *)
Definition read_path (path : option (list string)) : result (list string) :=
  match path with
  | Some p => Returned p
  | None => Raised
  end.

(** The loop of [get_token_prices].  [path] is the local variable of that
    name: the Uniswap block assigns it, and the Sushiswap block reads
    whatever it holds. *)
Fixpoint get_token_prices_loop (ch : Chain) (first : string) (token_addresses : list string)
         (prices : gmap string PriceEntry) (path : option (list string))
  : gmap string PriceEntry :=
  match token_addresses with
  | [] => prices
  | token_address :: rest =>
      let built := build_path ch token_address first in
      let path1 := match built with Returned p => Some p | Raised => path end in
      let prices1 :=
        match (p <- built ;;
               quote_entry ch routers_uniswap (Returned p) token_address) with
        | Returned e => <[ "uniswap_v2_" +:+ token_address := e ]> prices
        | Raised => prices
        end in
      let prices2 :=
        match quote_entry ch routers_sushiswap (read_path path1) token_address with
        | Returned e => <[ "sushiswap_" +:+ token_address := e ]> prices1
        | Raised => prices1
        end in
      get_token_prices_loop ch first rest prices2 path1
  end.

(** [get_token_prices] *)
Definition get_token_prices (ch : Chain) (token_addresses : list string)
  : gmap string PriceEntry :=
  match token_addresses with
  | [] => ∅
  | first :: _ => get_token_prices_loop ch first token_addresses ∅ None
  end.

(** [sum(1 for risk in risks.values() if risk == level)] *)
Definition count_level (level : string) (risks : gmap string string) : nat :=
  length (List.filter (fun kv => String.eqb (snd kv) level) (map_to_list risks)).

(** [assess_risk] *)
Definition assess_risk (ch : Chain) (opportunity : ArbitrageOpportunity)
  : gmap string string :=
  let risks : gmap string string :=
    <[ "slippage_risk"%string := "low"%string ]>
   (<[ "liquidity_risk"%string := "low"%string ]>
   (<[ "gas_risk"%string := "low"%string ]>
   (<[ "timing_risk"%string := "medium"%string ]>
   (<[ "overall_risk"%string := "low"%string ]> ∅)))) in
  let risks :=
    if Qltb (expected_profit opportunity) (inject_Z (gas_cost opportunity * 2))
    then <[ "slippage_risk"%string := "high"%string ]> risks
    else if Qltb (expected_profit opportunity) (inject_Z (gas_cost opportunity * 3))
         then <[ "slippage_risk"%string := "medium"%string ]> risks
         else risks in
  let current_gas_price := Z.of_N (gas_price ch) in
  let risks :=
    if max_gas_price * 1000000000 <? current_gas_price
    then <[ "gas_risk"%string := "high"%string ]> risks
    else risks in
  let high_risks := count_level "high" risks in
  let medium_risks := count_level "medium" risks in
  if (0 <? high_risks)%nat then <[ "overall_risk"%string := "high"%string ]> risks
  else if (1 <? medium_risks)%nat then <[ "overall_risk"%string := "medium"%string ]> risks
       else risks.

End ArbitrageMonitor.

(** ** smart_contract_interaction.py *)

Module SmartContractInterface.

(** [check_arbitrage_opportunity] *)
Definition check_arbitrage_opportunity (ch : Chain) (token_a token_b : string)
           (amount_in : Z) (router1 router2 : string) (reverse_order : bool) : Z :=
  match checkArbitrageOpportunity ch token_a token_b amount_in
                                  router1 router2 reverse_order with
  | Returned profit => Z.of_N profit
  | Raised => 0
  end.

(** [execute_arbitrage]: [True] exactly when the receipt's status is 1. *)
Definition execute_arbitrage (ch : Chain) (token_a token_b : string)
           (amount_in : Z) (router1 router2 : string) (reverse_order : bool) : bool :=
  match executeArbitrage ch token_a token_b amount_in
                         router1 router2 reverse_order with
  | Returned status => status =? 1
  | Raised => false
  end.

(** [get_token_balance] *)
Definition get_token_balance (ch : Chain) (token_address : string) : Z :=
  match getTokenBalance ch token_address with
  | Returned balance => Z.of_N balance
  | Raised => 0
  end.

End SmartContractInterface.

(** ** integrated_arbitrage_bot.py *)

Module IntegratedArbitrageBot.

Import ArbitrageMonitor SmartContractInterface.

(** The counters of the bot object. *)
Record Bot : Type := mkBot {
  executed_trades : Z;
  total_profit : Q;
  total_opportunities_found : Z;
  total_validations_passed : Z
}.

(** The counters as [__init__] sets them. *)
Definition new_bot : Bot :=
  {| executed_trades := 0;
     total_profit := 0;
     total_opportunities_found := 0;
     total_validations_passed := 0 |}.

(** What the coordinator does that the outside can see. *)
Inductive event : Type :=
| BalanceQuery (token : string)
| Submission (token_a token_b : string) (amount_in : Z)
             (router1 router2 : string) (reverse_order : bool)
| PrintInsufficientBalance
| PrintExecuted
| PrintExecutionFailed.

(** The outcome of one call of [execute_opportunity]. *)
Record Outcome : Type := mkOutcome {
  success : bool;
  bot_after : Bot;
  events : list event
}.

(** The percentage both [logger.log_prices] and the price log line compute:
    [abs(uni - sushi) / min(uni, sushi) * 100]. *)
Definition price_difference_percent (uni_price sushi_price : Q) : result Q :=
  r <- truediv (Qabs (uni_price - sushi_price)) (Qmin uni_price sushi_price) ;;
  Returned (r * 100)%Q.

(** Step 1 of [run_arbitrage_cycle]: sample and log every pair. *)
Fixpoint log_all_prices (ch : Chain) (token_pairs : list (string * string))
  : result unit :=
  match token_pairs with
  | [] => Returned tt
  | token_pair :: rest =>
      let '(uni_price, sushi_price) := get_current_prices ch token_pair in
      _ <- price_difference_percent uni_price sushi_price ;;
      log_all_prices ch rest
  end.

(** The test of line 118:
    [abs(expected_profit - contract_profit) / max(expected_profit, contract_profit) < 0.1] *)
Definition profits_agree (local_profit contract_profit : Q) : result bool :=
  r <- truediv (Qabs (local_profit - contract_profit))
               (Qmax local_profit contract_profit) ;;
  Returned (Qltb r (1 # 10)).

(** The authoritative figure for an opportunity, as the cycle asks for it. *)
Definition contract_profit_of (ch : Chain) (opp : ArbitrageOpportunity) : Z :=
  check_arbitrage_opportunity ch (token_a opp) (token_b opp) (amount_in opp)
                              ROUTERS_UNISWAP_V2 ROUTERS_SUSHISWAP (reverse_order opp).

(** Step 2 of [run_arbitrage_cycle]: the validation loop with its accumulator. *)
Fixpoint validate_loop (ch : Chain) (opportunities : list ArbitrageOpportunity)
         (validated_opportunities : list ArbitrageOpportunity)
  : result (list ArbitrageOpportunity) :=
  match opportunities with
  | [] => Returned validated_opportunities
  | opp :: rest =>
      let contract_profit := contract_profit_of ch opp in
      ok <- profits_agree (expected_profit opp) (inject_Z contract_profit) ;;
      if ok : bool
      then validate_loop ch rest (validated_opportunities ++ [opp])
      else validate_loop ch rest validated_opportunities
  end.

(** [run_arbitrage_cycle]: the counters it leaves and what it returns. *)
Definition run_arbitrage_cycle (ch : Chain) (bot : Bot)
           (token_pairs : list (string * string))
  : Bot * result (list ArbitrageOpportunity) :=
  match log_all_prices ch token_pairs with
  | Raised => (bot, Raised)
  | Returned _ =>
      match monitor_opportunities ch token_pairs with
      | Raised => (bot, Raised)
      | Returned [] => (bot, Returned [])
      | Returned opportunities =>
          let bot' :=
            {| executed_trades := executed_trades bot;
               total_profit := total_profit bot;
               total_opportunities_found :=
                 total_opportunities_found bot + Z.of_nat (length opportunities);
               total_validations_passed := total_validations_passed bot |} in
          (bot', validate_loop ch opportunities [])
      end
  end.

(** [execute_opportunity], from the balance check on. *)
Definition execute_opportunity (ch : Chain) (bot : Bot) (opportunity : ArbitrageOpportunity)
  : Outcome :=
  let current_balance := get_token_balance ch (token_a opportunity) in
  if current_balance <? amount_in opportunity then
    {| success := false;
       bot_after := bot;
       events := [BalanceQuery (token_a opportunity); PrintInsufficientBalance] |}
  else
    let submitted :=
      Submission (token_a opportunity) (token_b opportunity) (amount_in opportunity)
                 ROUTERS_UNISWAP_V2 ROUTERS_SUSHISWAP (reverse_order opportunity) in
    let ok :=
      execute_arbitrage ch (token_a opportunity) (token_b opportunity)
                        (amount_in opportunity)
                        ROUTERS_UNISWAP_V2 ROUTERS_SUSHISWAP (reverse_order opportunity) in
    if ok then
      {| success := true;
         bot_after :=
           {| executed_trades := executed_trades bot + 1;
              total_profit := (total_profit bot + net_profit opportunity)%Q;
              total_opportunities_found := total_opportunities_found bot;
              total_validations_passed := total_validations_passed bot |};
         events := [BalanceQuery (token_a opportunity); submitted; PrintExecuted] |}
    else
      {| success := false;
         bot_after := bot;
         events := [BalanceQuery (token_a opportunity); submitted; PrintExecutionFailed] |}.

(** The gate of [run_bot]: [opportunity.net_profit > 1000000000000000]. *)
Definition worth_executing (opportunity : ArbitrageOpportunity) : bool :=
  Qltb (inject_Z 1000000000000000) (net_profit opportunity).

(** The execution loop of one cycle of [run_bot]: only the opportunities
    that pass the gate are executed. *)
Fixpoint execute_profitable (bot : Bot) (calls : list (Chain * ArbitrageOpportunity))
  : Bot * list event :=
  match calls with
  | [] => (bot, [])
  | (ch, opportunity) :: rest =>
      if worth_executing opportunity then
        let out := execute_opportunity ch bot opportunity in
        let '(bot', evs) := execute_profitable (bot_after out) rest in
        (bot', events out ++ evs)
      else execute_profitable bot rest
  end.

(** The loop of [run_bot].  [env n] is the chain as it answers during
    cycle [n]; [fuel] is the number of cycles still allowed.  An exception
    in a cycle leaves the loop through the [except] clause.  The result is
    the counters, [cycle_count] and what the coordinator did. *)
Fixpoint run_bot_loop (env : nat -> Chain) (token_pairs : list (string * string))
         (fuel cycle_count : nat) (bot : Bot) (done : list event)
  : Bot * nat * list event :=
  match fuel with
  | O => (bot, cycle_count, done)
  | S fuel' =>
      let ch := env cycle_count in
      let cycle_count := S cycle_count in
      match run_arbitrage_cycle ch bot token_pairs with
      | (bot1, Raised) => (bot1, cycle_count, done)
      | (bot1, Returned opportunities) =>
          let '(bot2, evs) :=
            execute_profitable bot1 (map (fun o => (ch, o)) opportunities) in
          run_bot_loop env token_pairs fuel' cycle_count bot2 (done ++ evs)
      end
  end.

(** [run_bot]: [while self.is_running and cycle_count < max_cycles], with
    nobody calling [stop_bot] meanwhile. *)
Definition run_bot (env : nat -> Chain) (token_pairs : list (string * string))
           (max_cycles : Z) (bot : Bot) : Bot * nat * list event :=
  run_bot_loop env token_pairs (Z.to_nat max_cycles) 0 bot [].

End IntegratedArbitrageBot.

(** ** The modules as the interpreter runs them

    The three modules above follow the algorithms of the files in exact
    arithmetic.  This one follows the files to the letter: numbers are
    Python's [int] and [float], a name that is bound nowhere raises where it
    is read, and [from_wei] returns what the library returns. *)

Module AsWritten.

Import SmartContractInterface.

(** [arbitrage_monitor.py] reads [UNISWAP_ROUTER_ABI] and
    [integrated_arbitrage_bot.py] reads [datetime]; neither module binds or
    imports the name, so reading it raises NameError. *)
Definition UNISWAP_ROUTER_ABI : result unit := Raised.
Definition datetime : result unit := Raised.

(** The dataclass, with the values the constructors are given: the profit
    figures are ints on one path and floats on the other. *)
Record ArbitrageOpportunity : Type := mkOpportunity {
  token_a : string;
  token_b : string;
  amount_in : Z;
  expected_profit : num;
  gas_cost : Z;
  net_profit : num;
  router1 : string;
  router2 : string;
  reverse_order : bool;
  confidence_score : float
}.

(** Risk management parameters set by [__init__]. *)
Definition min_profit_threshold : float := nearest_float (1 # 1000).
Definition min_liquidity : Z := 10000.

(** The literal [1e18]. *)
Definition float_1e18 : float := Finite 1000000000000000000.

(** What [from_wei] returns: the int 0, or a [Decimal]. *)
Inductive ether : Type :=
| EtherInt (z : Z)
| EtherDecimal (d : Q).

(** [w3.from_wei(number, 'ether')]: 0 for 0, ValueError outside
    [1 .. 2^256 - 1], otherwise the quotient by [10^18] as a [Decimal]. *)
Definition from_wei (number : Z) : result ether :=
  if number =? 0 then Returned (EtherInt 0)
  else if (number <? 1) || (2 ^ 256 - 1 <? number) then Raised
  else Returned (EtherDecimal (inject_Z number / inject_Z (10 ^ 18))).

(** [x * f] for a float [f]: TypeError when [x] is a [Decimal]. *)
Definition ether_mul (x : ether) (f : float) : result num :=
  match x with
  | EtherInt z => num_mul (Int z) (Float f)
  | EtherDecimal _ => Raised
  end.

(** [_estimate_gas_cost] *)
Definition _estimate_gas_cost (ch : Chain) : result Z :=
  let gas_limit := 200000 in
  let gas_cost_wei := gas_limit * Z.of_N (gas_price ch) in
  gas_cost_eth <- from_wei gas_cost_wei ;;
  wei <- ether_mul gas_cost_eth float_1e18 ;;
  int_of_num wei.

(** The body of the [try] block of [get_current_prices]. *)
Definition get_current_prices_try (ch : Chain) (token_pair : string * string)
  : result (float * float) :=
  let '(token_a, token_b) := token_pair in
  let amount_in := ArbitrageMonitor.one_ether in
  ca <- to_checksum_address ch token_a ;;
  cb <- to_checksum_address ch token_b ;;
  let path := [ca; cb] in
  uni_router <- to_checksum_address ch ArbitrageMonitor.routers_uniswap ;;
  _ <- UNISWAP_ROUTER_ABI ;;
  uni_amounts <- getAmountsOut ch uni_router amount_in path ;;
  let uni_decimals := ArbitrageMonitor.decimals_for token_b in
  uni_out <- index uni_amounts 1 ;;
  uni_price <- int_truediv (Z.of_N uni_out) (10 ^ uni_decimals) ;;
  sushi_router <- to_checksum_address ch ArbitrageMonitor.routers_sushiswap ;;
  _ <- UNISWAP_ROUTER_ABI ;;
  sushi_amounts <- getAmountsOut ch sushi_router amount_in path ;;
  let sushi_decimals := ArbitrageMonitor.decimals_for token_b in
  sushi_out <- index sushi_amounts 1 ;;
  sushi_price <- int_truediv (Z.of_N sushi_out) (10 ^ sushi_decimals) ;;
  Returned (uni_price, sushi_price).

(** [get_current_prices]: any exception becomes [(0.0, 0.0)]. *)
Definition get_current_prices (ch : Chain) (token_pair : string * string)
  : float * float :=
  match get_current_prices_try ch token_pair with
  | Returned prices => prices
  | Raised => (Finite 0, Finite 0)
  end.

(** [int(price_diff * amount_in / min(uni_price, sushi_price))] *)
Definition gross_profit (price_diff : float) (amount_in : Z)
           (uni_price sushi_price : float) : result Z :=
  a <- float_of_int amount_in ;;
  q <- float_truediv (float_mul price_diff a) (float_min uni_price sushi_price) ;;
  int_of_float q.

(** One iteration of the loop of [monitor_opportunities], from the sampled
    prices on: the opportunities to append, or the exception that escapes. *)
Definition evaluate_prices (ch : Chain) (token_a token_b : string)
           (uni_price sushi_price : float) : result (list ArbitrageOpportunity) :=
  let price_diff := float_abs (float_sub uni_price sushi_price) in
  if float_lt (Finite 0) price_diff then
    let amount_in := 1000000000000000000 in
    expected_profit <- gross_profit price_diff amount_in uni_price sushi_price ;;
    gas_cost <- _estimate_gas_cost ch ;;
    if gas_cost <? expected_profit then
      Returned [ {| token_a := token_a;
                    token_b := token_b;
                    amount_in := amount_in;
                    expected_profit := Int expected_profit;
                    gas_cost := gas_cost;
                    net_profit := Int (expected_profit - gas_cost);
                    router1 := ArbitrageMonitor.routers_uniswap;
                    router2 := ArbitrageMonitor.routers_sushiswap;
                    reverse_order := float_lt sushi_price uni_price;
                    confidence_score := nearest_float (9 # 10) |} ]
    else Returned []
  else Returned [].

(** The loop of [monitor_opportunities] with its accumulator. *)
Fixpoint monitor_loop (ch : Chain) (token_pairs : list (string * string))
         (opportunities : list ArbitrageOpportunity)
  : result (list ArbitrageOpportunity) :=
  match token_pairs with
  | [] => Returned opportunities
  | (token_a, token_b) :: rest =>
      let '(uni_price, sushi_price) := get_current_prices ch (token_a, token_b) in
      found <- evaluate_prices ch token_a token_b uni_price sushi_price ;;
      monitor_loop ch rest (opportunities ++ found)
  end.

(** [monitor_opportunities] (the code up to its first [return]). *)
Definition monitor_opportunities (ch : Chain) (token_pairs : list (string * string))
  : result (list ArbitrageOpportunity) :=
  monitor_loop ch token_pairs [].

(** The values of the [prices] dictionary, as [get_token_prices] stores
    them: floats under ['price'] and ['liquidity']. *)
Record PriceEntry : Type := mkPriceEntry {
  price : option float;
  liquidity : option float;
  symbol : option string
}.

(** [prices.get(key, {}).get('price', 0)] *)
Definition get_price (prices : gmap string PriceEntry) (key : string) : num :=
  match prices !! key with
  | Some e => match price e with Some p => Float p | None => Int 0 end
  | None => Int 0
  end.

(** [prices.get(key, {}).get('liquidity', 0)] *)
Definition get_liquidity (prices : gmap string PriceEntry) (key : string) : num :=
  match prices !! key with
  | Some e => match liquidity e with Some l => Float l | None => Int 0 end
  | None => Int 0
  end.

(** [_calculate_confidence_score] *)
Definition _calculate_confidence_score (token_a token_b : string)
           (prices : gmap string PriceEntry) (profit : num) : result float :=
  let uniswap_liquidity_a := get_liquidity prices ("uniswap_v2_" +:+ token_a) in
  let sushiswap_liquidity_a := get_liquidity prices ("sushiswap_" +:+ token_a) in
  total_liquidity <- num_add uniswap_liquidity_a sushiswap_liquidity_a ;;
  liquidity_share <- num_truediv total_liquidity (Int min_liquidity) ;;
  let liquidity_score := float_min liquidity_share (Finite 1) in
  let full_profit :=
    float_mul (float_mul min_profit_threshold float_1e18) (Finite 10) in
  profit_share <- num_truediv profit (Float full_profit) ;;
  let profit_score := float_min profit_share (Finite 1) in
  let confidence :=
    float_add (float_mul liquidity_score (nearest_float (6 # 10)))
              (float_mul profit_score (nearest_float (4 # 10))) in
  Returned confidence.

(** [b / a if a > 0 else 0] *)
Definition rate (b a : num) : result num :=
  if num_lt (Int 0) a then r <- num_truediv b a ;; Returned (Float r)
  else Returned (Int 0).

(** [calculate_arbitrage_opportunity]; [None] is Python's [None]. *)
Definition calculate_arbitrage_opportunity (ch : Chain) (token_a token_b : string)
           (amount_in : Z) (prices : gmap string PriceEntry)
  : result (option ArbitrageOpportunity) :=
  let uniswap_a_price := get_price prices ("uniswap_v2_" +:+ token_a) in
  let uniswap_b_price := get_price prices ("uniswap_v2_" +:+ token_b) in
  let sushiswap_a_price := get_price prices ("sushiswap_" +:+ token_a) in
  let sushiswap_b_price := get_price prices ("sushiswap_" +:+ token_b) in
  if negb (forallb num_truthy [uniswap_a_price; uniswap_b_price;
                               sushiswap_a_price; sushiswap_b_price])
  then Returned None
  else
    uniswap_rate <- rate uniswap_b_price uniswap_a_price ;;
    sushiswap_rate <- rate sushiswap_b_price sushiswap_a_price ;;
    if num_eq uniswap_rate (Int 0) || num_eq sushiswap_rate (Int 0)
    then Returned None
    else
      branch <-
        (if num_lt sushiswap_rate uniswap_rate then
           amount_out_sushi <- num_mul (Int amount_in) sushiswap_rate ;;
           amount_out_uni <- num_truediv amount_out_sushi uniswap_rate ;;
           profit <- num_sub (Float amount_out_uni) (Int amount_in) ;;
           Returned (profit, "sushiswap"%string, "uniswap_v2"%string, true)
         else
           amount_out_uni <- num_mul (Int amount_in) uniswap_rate ;;
           amount_out_sushi <- num_truediv amount_out_uni sushiswap_rate ;;
           profit <- num_sub (Float amount_out_sushi) (Int amount_in) ;;
           Returned (profit, "uniswap_v2"%string, "sushiswap"%string, true)) ;;
      let '(profit, router1, router2, reverse_order) := branch in
      if num_le profit (Int 0) then Returned None
      else
        gas_cost <- _estimate_gas_cost ch ;;
        net_profit <- num_sub profit (Int gas_cost) ;;
        if num_lt net_profit (Float min_profit_threshold) then Returned None
        else
          confidence <- _calculate_confidence_score token_a token_b prices profit ;;
          Returned (Some {| token_a := token_a;
                            token_b := token_b;
                            amount_in := amount_in;
                            expected_profit := profit;
                            gas_cost := gas_cost;
                            net_profit := net_profit;
                            router1 := router1;
                            router2 := router2;
                            reverse_order := reverse_order;
                            confidence_score := confidence |}).

(** The counters of the bot object; [total_profit] starts as the int 0. *)
Record Bot : Type := mkBot {
  executed_trades : Z;
  total_profit : num;
  total_opportunities_found : Z;
  total_validations_passed : Z
}.

Definition new_bot : Bot :=
  {| executed_trades := 0;
     total_profit := Int 0;
     total_opportunities_found := 0;
     total_validations_passed := 0 |}.

(** The percentage both [logger.log_prices] and the price log line compute:
    [abs(uni - sushi) / min(uni, sushi) * 100]. *)
Definition price_difference_percent (uni_price sushi_price : float) : result float :=
  r <- float_truediv (float_abs (float_sub uni_price sushi_price))
                     (float_min uni_price sushi_price) ;;
  Returned (float_mul r (Finite 100)).

(** Step 1 of [run_arbitrage_cycle]: sample and log every pair. *)
Fixpoint log_all_prices (ch : Chain) (token_pairs : list (string * string))
  : result unit :=
  match token_pairs with
  | [] => Returned tt
  | token_pair :: rest =>
      let '(uni_price, sushi_price) := get_current_prices ch token_pair in
      _ <- price_difference_percent uni_price sushi_price ;;
      log_all_prices ch rest
  end.

(** The test of line 118:
    [abs(expected_profit - contract_profit) / max(expected_profit, contract_profit) < 0.1] *)
Definition profits_agree (local_profit : num) (contract_profit : Z) : result bool :=
  difference <- num_sub local_profit (Int contract_profit) ;;
  r <- num_truediv (num_abs difference) (num_max local_profit (Int contract_profit)) ;;
  Returned (float_lt r (nearest_float (1 # 10))).

(** The authoritative figure for an opportunity, as the cycle asks for it. *)
Definition contract_profit_of (ch : Chain) (opp : ArbitrageOpportunity) : Z :=
  check_arbitrage_opportunity ch (token_a opp) (token_b opp) (amount_in opp)
                              ROUTERS_UNISWAP_V2 ROUTERS_SUSHISWAP (reverse_order opp).

(** One iteration of the validation loop: the two profit lines it prints
    ([... / 1e18]), then the test. *)
Definition validate (ch : Chain) (opp : ArbitrageOpportunity) : result bool :=
  let contract_profit := contract_profit_of ch opp in
  _ <- num_truediv (expected_profit opp) (Float float_1e18) ;;
  _ <- num_truediv (Int contract_profit) (Float float_1e18) ;;
  profits_agree (expected_profit opp) contract_profit.

(** Step 2 of [run_arbitrage_cycle]: the validation loop with its accumulator. *)
Fixpoint validate_loop (ch : Chain) (opportunities : list ArbitrageOpportunity)
         (validated_opportunities : list ArbitrageOpportunity)
  : result (list ArbitrageOpportunity) :=
  match opportunities with
  | [] => Returned validated_opportunities
  | opp :: rest =>
      ok <- validate ch opp ;;
      if ok : bool
      then validate_loop ch rest (validated_opportunities ++ [opp])
      else validate_loop ch rest validated_opportunities
  end.

(** [run_arbitrage_cycle]: the counters it leaves and what it returns. *)
Definition run_arbitrage_cycle (ch : Chain) (bot : Bot)
           (token_pairs : list (string * string))
  : Bot * result (list ArbitrageOpportunity) :=
  match log_all_prices ch token_pairs with
  | Raised => (bot, Raised)
  | Returned _ =>
      match monitor_opportunities ch token_pairs with
      | Raised => (bot, Raised)
      | Returned [] => (bot, Returned [])
      | Returned opportunities =>
          let bot' :=
            {| executed_trades := executed_trades bot;
               total_profit := total_profit bot;
               total_opportunities_found :=
                 total_opportunities_found bot + Z.of_nat (length opportunities);
               total_validations_passed := total_validations_passed bot |} in
          (bot', validate_loop ch opportunities [])
      end
  end.

(** The dictionary [trade_data] that [execute_opportunity] builds first:
    four amounts in ether, the score, and [datetime.now().isoformat()]. *)
Definition trade_data (opportunity : ArbitrageOpportunity) : result unit :=
  _ <- num_truediv (Int (amount_in opportunity)) (Float float_1e18) ;;
  _ <- num_truediv (expected_profit opportunity) (Float float_1e18) ;;
  _ <- num_truediv (Int (gas_cost opportunity)) (Float float_1e18) ;;
  _ <- num_truediv (net_profit opportunity) (Float float_1e18) ;;
  _ <- datetime ;;
  Returned tt.

(** What a call of [execute_opportunity] leaves: the value it returns or
    the exception, the counters, and what the coordinator did. *)
Record Outcome : Type := mkOutcome {
  returned : result bool;
  bot_after : Bot;
  events : list IntegratedArbitrageBot.event
}.

(** [execute_opportunity] *)
Definition execute_opportunity (ch : Chain) (bot : Bot)
           (opportunity : ArbitrageOpportunity) : Outcome :=
  match trade_data opportunity with
  | Raised => {| returned := Raised; bot_after := bot; events := [] |}
  | Returned _ =>
      let asked := IntegratedArbitrageBot.BalanceQuery (token_a opportunity) in
      let current_balance := get_token_balance ch (token_a opportunity) in
      if current_balance <? amount_in opportunity then
        match num_truediv (Int current_balance) (Float float_1e18) with
        | Raised => {| returned := Raised; bot_after := bot; events := [asked] |}
        | Returned _ =>
            {| returned := Returned false;
               bot_after := bot;
               events := [asked; IntegratedArbitrageBot.PrintInsufficientBalance] |}
        end
      else
        let submitted :=
          IntegratedArbitrageBot.Submission
            (token_a opportunity) (token_b opportunity) (amount_in opportunity)
            ROUTERS_UNISWAP_V2 ROUTERS_SUSHISWAP (reverse_order opportunity) in
        let success :=
          execute_arbitrage ch (token_a opportunity) (token_b opportunity)
                            (amount_in opportunity)
                            ROUTERS_UNISWAP_V2 ROUTERS_SUSHISWAP
                            (reverse_order opportunity) in
        if success then
          let counted :=
            {| executed_trades := executed_trades bot + 1;
               total_profit := total_profit bot;
               total_opportunities_found := total_opportunities_found bot;
               total_validations_passed := total_validations_passed bot |} in
          match num_add (total_profit bot) (net_profit opportunity) with
          | Raised =>
              {| returned := Raised; bot_after := counted; events := [asked; submitted] |}
          | Returned total =>
              let credited :=
                {| executed_trades := executed_trades bot + 1;
                   total_profit := total;
                   total_opportunities_found := total_opportunities_found bot;
                   total_validations_passed := total_validations_passed bot |} in
              match num_truediv total (Float float_1e18) with
              | Raised =>
                  {| returned := Raised;
                     bot_after := credited;
                     events := [asked; submitted; IntegratedArbitrageBot.PrintExecuted] |}
              | Returned _ =>
                  {| returned := Returned true;
                     bot_after := credited;
                     events := [asked; submitted; IntegratedArbitrageBot.PrintExecuted] |}
              end
          end
        else
          {| returned := Returned false;
             bot_after := bot;
             events := [asked; submitted; IntegratedArbitrageBot.PrintExecutionFailed] |}
  end.

End AsWritten.

(** ** utils/logger.py *)

Module ArbitrageLogger.

(** One entry of [price_data]. *)
Record PriceRow : Type := mkPriceRow {
  timestamp : string;
  token_pair : string;
  uniswap_price : Q;
  sushiswap_price : Q;
  price_difference : Q;
  price_difference_percent : Q
}.

(** A line of a CSV file. *)
Inductive CsvLine : Type :=
| Header
| Row (r : PriceRow).

(** [datetime.now()], in the two formats the logger asks for. *)
Record Clock : Type := mkClock {
  isoformat : string;
  yyyymmdd : string
}.

(** The logger object, with the files of its directory. *)
Record Logger : Type := mkLogger {
  log_dir : string;
  price_data : list PriceRow;
  files : gmap string (list CsvLine)
}.

(** [ArbitrageLogger(log_dir)] in a directory without price files. *)
Definition new_logger (dir : string) : Logger :=
  {| log_dir := dir; price_data := []; files := ∅ |}.

Definition price_file (lg : Logger) (now : Clock) : string :=
  log_dir lg +:+ "/price_data_" +:+ yyyymmdd now +:+ ".csv".

(** [save_price_data]: append the buffer to the file of the day, with a
    header when the file does not exist yet, and clear the buffer. *)
Definition save_price_data (lg : Logger) (now : Clock) : Logger :=
  let filename := price_file lg now in
  let rows := map Row (price_data lg) in
  let content :=
    match files lg !! filename with
    | Some old => old ++ rows
    | None => Header :: rows
    end in
  {| log_dir := log_dir lg;
     price_data := [];
     files := <[ filename := content ]> (files lg) |}.

(** [log_prices]: [now] is the clock when the entry is stamped, [later]
    when the buffer is saved. *)
Definition log_prices (lg : Logger) (now later : Clock) (pair : string * string)
           (uni_price sushi_price : Q) : result Logger :=
  r <- truediv (Qabs (uni_price - sushi_price)) (Qmin uni_price sushi_price) ;;
  let price_entry :=
    {| timestamp := isoformat now;
       token_pair := fst pair +:+ "/" +:+ snd pair;
       uniswap_price := uni_price;
       sushiswap_price := sushi_price;
       price_difference := Qabs (uni_price - sushi_price);
       price_difference_percent := (r * 100)%Q |} in
  let lg1 :=
    {| log_dir := log_dir lg;
       price_data := price_data lg ++ [price_entry];
       files := files lg |} in
  if (100 <=? length (price_data lg1))%nat
  then Returned (save_price_data lg1 later)
  else Returned lg1.

(** One call of [log_prices] as a caller makes it. *)
Record PriceCall : Type := mkPriceCall {
  call_now : Clock;
  call_later : Clock;
  call_pair : string * string;
  call_uni : Q;
  call_sushi : Q
}.

(** A sequence of calls by a caller that carries on after an exception. *)
Fixpoint log_many (lg : Logger) (calls : list PriceCall) : Logger :=
  match calls with
  | [] => lg
  | c :: rest =>
      match log_prices lg (call_now c) (call_later c) (call_pair c)
                       (call_uni c) (call_sushi c) with
      | Returned lg' => log_many lg' rest
      | Raised => log_many lg rest
      end
  end.

End ArbitrageLogger.

(** ** Concrete chains and opportunities used in the examples *)

Module Scenarios.

Import ArbitrageMonitor SmartContractInterface IntegratedArbitrageBot.

(** A chain on which every address is well formed, the two routers answer
    [uni] and [sushi], and the executor contract answers [check], [balance]
    and [status]. *)
Definition chain_of (uni sushi : result (list N)) (gas : N)
           (check balance : result N) (status : result Z) : Chain :=
  {| to_checksum_address := fun addr => Returned addr;
     getAmountsOut := fun router _ _ =>
       if String.eqb router routers_uniswap then uni else sushi;
     gas_price := gas;
     checkArbitrageOpportunity := fun _ _ _ _ _ _ => check;
     getTokenBalance := fun _ => balance;
     executeArbitrage := fun _ _ _ _ _ _ => status |}.

Definition weth_usdc : string * string := (TOKENS_WETH, TOKENS_USDC).

(** 1 WETH quotes 3000 USDC on Uniswap and 3050 USDC on Sushiswap; gas is
    10 gwei, so 200000 gas cost 0.002 ETH. *)
Definition spread_50 : Chain :=
  chain_of (Returned [1000000000000000000; 3000000000]%N)
           (Returned [1000000000000000000; 3050000000]%N)
           10000000000
           (Returned 16000000000000000%N)
           (Returned 2000000000000000000%N)
           (Returned 1).

(** An opportunity for the pair on [spread_50]: a gross profit of
    16666666666666666 wei against a gas cost of 0.002 ETH. *)
Definition opp_50 : ArbitrageOpportunity :=
  {| token_a := TOKENS_WETH;
     token_b := TOKENS_USDC;
     amount_in := 1000000000000000000;
     expected_profit := inject_Z 16666666666666666;
     gas_cost := 2000000000000000;
     net_profit := inject_Z 14666666666666666;
     router1 := routers_uniswap;
     router2 := routers_sushiswap;
     reverse_order := false;
     confidence_score := 9 # 10 |}.

(** The Uniswap router is unreachable; Sushiswap quotes 3050 USDC. *)
Definition uni_down : Chain :=
  chain_of Raised
           (Returned [1000000000000000000; 3050000000]%N)
           10000000000 Raised (Returned 0%N) Raised.

(** Sushiswap answers with a single amount; Uniswap quotes 3000 USDC. *)
Definition sushi_malformed : Chain :=
  chain_of (Returned [1000000000000000000; 3000000000]%N)
           (Returned [1000000000000000000]%N)
           10000000000 Raised (Returned 0%N) Raised.

(** Both routers answer, and both quote an output of zero; the executor
    contract reports a profit of zero. *)
Definition zero_quotes : Chain :=
  chain_of (Returned [1000000000000000000; 0]%N)
           (Returned [1000000000000000000; 0]%N)
           10000000000 (Returned 0%N) (Returned 0%N) Raised.

(** Both routers quote 3000 USDC. *)
Definition no_spread : Chain :=
  chain_of (Returned [1000000000000000000; 3000000000]%N)
           (Returned [1000000000000000000; 3000000000]%N)
           10000000000 (Returned 0%N) (Returned 0%N) Raised.

(** The contract holds 0.5 WETH; a submission would succeed. *)
Definition half_ether_balance : Chain :=
  chain_of (Returned [1000000000000000000; 3000000000]%N)
           (Returned [1000000000000000000; 3050000000]%N)
           10000000000
           (Returned 16000000000000000%N)
           (Returned 500000000000000000%N)
           (Returned 1).

(** A price table on which Uniswap's rate B/A is 2 and Sushiswap's is 1. *)
Definition entry (p l : Q) : PriceEntry :=
  {| price := Some p; liquidity := Some l; symbol := None |}.

Definition skewed_prices : gmap string PriceEntry :=
  <[ "uniswap_v2_A"%string := entry 1 6000 ]>
 (<[ "uniswap_v2_B"%string := entry 2 6000 ]>
 (<[ "sushiswap_A"%string := entry 1 1000 ]>
 (<[ "sushiswap_B"%string := entry 1 1000 ]> ∅))).

(** A chain whose gas is free. *)
Definition free_gas : Chain :=
  chain_of Raised Raised 0 Raised Raised Raised.


(** A chain like [spread_50] on which one string is not an address. *)
Definition not_an_address : string := "0xnot-an-address".

Definition strict_addresses : Chain :=
  {| to_checksum_address := fun addr =>
       if String.eqb addr not_an_address then Raised else Returned addr;
     getAmountsOut := getAmountsOut spread_50;
     gas_price := gas_price spread_50;
     checkArbitrageOpportunity := checkArbitrageOpportunity spread_50;
     getTokenBalance := getTokenBalance spread_50;
     executeArbitrage := executeArbitrage spread_50 |}.




(** What the loop of [monitor_opportunities] appends for prices 3000 and
    3050 when the gas estimate is 0. *)
(** An opportunity as the loop of [monitor_opportunities] builds it from
    prices 3000 and 3050 when gas is free. *)
Definition found_50 : AsWritten.ArbitrageOpportunity :=
  {| AsWritten.token_a := TOKENS_WETH;
     AsWritten.token_b := TOKENS_USDC;
     AsWritten.amount_in := 1000000000000000000;
     AsWritten.expected_profit := Int 16666666666666666;
     AsWritten.gas_cost := 0;
     AsWritten.net_profit := Int 16666666666666666;
     AsWritten.router1 := routers_uniswap;
     AsWritten.router2 := routers_sushiswap;
     AsWritten.reverse_order := false;
     AsWritten.confidence_score := nearest_float (9 # 10) |}.

(** The same for prices 3000 and 3000.5. *)
Definition found_half : AsWritten.ArbitrageOpportunity :=
  {| AsWritten.token_a := TOKENS_WETH;
     AsWritten.token_b := TOKENS_USDC;
     AsWritten.amount_in := 1000000000000000000;
     AsWritten.expected_profit := Int 166666666666666;
     AsWritten.gas_cost := 0;
     AsWritten.net_profit := Int 166666666666666;
     AsWritten.router1 := routers_uniswap;
     AsWritten.router2 := routers_sushiswap;
     AsWritten.reverse_order := false;
     AsWritten.confidence_score := nearest_float (9 # 10) |}.



(** The executor contract reports one wei less than 1 ETH. *)
Definition just_under_one_ether : Chain :=
  chain_of Raised Raised 0 (Returned 999999999999999999%N) (Returned 0%N) Raised.

(** An opportunity with a local profit of 0.9 ETH. *)
Definition opp_09 : AsWritten.ArbitrageOpportunity :=
  {| AsWritten.token_a := TOKENS_WETH;
     AsWritten.token_b := TOKENS_USDC;
     AsWritten.amount_in := 1000000000000000000;
     AsWritten.expected_profit := Int 900000000000000000;
     AsWritten.gas_cost := 0;
     AsWritten.net_profit := Int 900000000000000000;
     AsWritten.router1 := routers_uniswap;
     AsWritten.router2 := routers_sushiswap;
     AsWritten.reverse_order := false;
     AsWritten.confidence_score := nearest_float (9 # 10) |}.


End Scenarios.

(** ** Properties *)

Import ArbitrageMonitor SmartContractInterface IntegratedArbitrageBot Scenarios.

(** The quote of one router for a pair, as [get_current_prices] asks for it:
    the checksummed path and router address, the call, and [amounts[1]]. *)
Definition side_quote (ch : Chain) (router token_a token_b : string) : result N :=
  ca <- to_checksum_address ch token_a ;;
  cb <- to_checksum_address ch token_b ;;
  r <- to_checksum_address ch router ;;
  amounts <- getAmountsOut ch r one_ether [ca; cb] ;;
  index amounts 1.

(** The tolerance test in the words of the specification:
    |local - authoritative| / max(local, authoritative) < tolerance. *)
Definition within_tolerance (local_profit authoritative_profit tolerance : Q) : Prop :=
  (Qabs (local_profit - authoritative_profit)
   / Qmax local_profit authoritative_profit < tolerance)%Q.

(** An execution is successful when the balance covers the input amount
    and the submitted transaction's receipt has status 1. *)
Definition execution_succeeds (ch : Chain) (opp : ArbitrageOpportunity) : bool :=
  match executeArbitrage ch (token_a opp) (token_b opp) (amount_in opp)
                         ROUTERS_UNISWAP_V2 ROUTERS_SUSHISWAP (reverse_order opp) with
  | Returned status =>
      (status =? 1) && (amount_in opp <=? get_token_balance ch (token_a opp))
  | Raised => false
  end.

(** The counters after one more successful execution of [opp]. *)
Definition credited (bot : Bot) (opp : ArbitrageOpportunity) : Bot :=
  {| executed_trades := executed_trades bot + 1;
     total_profit := (total_profit bot + net_profit opp)%Q;
     total_opportunities_found := total_opportunities_found bot;
     total_validations_passed := total_validations_passed bot |}.

(** What [get_token_prices] stores under a key: a liquidity of 1.0, a
    non-negative price, and the last four characters of a token of the list,
    under that token's Uniswap or Sushiswap key. *)
Definition sampled_entry (token_addresses : list string) (key : string)
           (e : PriceEntry) : Prop :=
  liquidity e = Some 1%Q
  /\ (exists p, price e = Some p /\ (0 <= p)%Q)
  /\ exists t, In t token_addresses
              /\ symbol e = Some (last4 t)
              /\ (key = "uniswap_v2_" +:+ t \/ key = "sushiswap_" +:+ t).

(** A pair one of whose sampled prices is zero: the lower of the two
    prices [get_current_prices] returns is zero. *)
Definition zero_price (ch : Chain) (token_pair : string * string) : Prop :=
  (Qmin (fst (get_current_prices ch token_pair))
        (snd (get_current_prices ch token_pair)) == 0)%Q.

(** A price file as the logger writes it: one header line, then rows. *)
Definition file_ok (content : list ArbitrageLogger.CsvLine) : Prop :=
  exists rows, content = ArbitrageLogger.Header :: map ArbitrageLogger.Row rows.

(** The state the logger keeps between calls: fewer than 100 buffered
    entries, and well-formed files. *)
Definition logger_ok (lg : ArbitrageLogger.Logger) : Prop :=
  (length (ArbitrageLogger.price_data lg) < 100)%nat
  /\ forall f content, ArbitrageLogger.files lg !! f = Some content -> file_ok content.

(** The call computes its percentage: the lower price is not zero. *)
Definition call_ok (c : ArbitrageLogger.PriceCall) : bool :=
  negb (Qeq_bool (Qmin (ArbitrageLogger.call_uni c) (ArbitrageLogger.call_sushi c)) 0).



(** The quotient the validation test compares with 0.1, in exact terms. *)
Definition relative_difference (l a : Z) : Q :=
  (Qabs (inject_Z l - inject_Z a) / Qmax (inject_Z l) (inject_Z a))%Q.

(** The decision of one validation, [false] when it raises. *)
Definition passes (ch : Chain) (opp : AsWritten.ArbitrageOpportunity) : bool :=
  match AsWritten.validate ch opp with
  | Returned ok => ok
  | Raised => false
  end.


(** *** Numbers *)

Lemma Qltb_true (a b : Q) : Qltb a b = true <-> (a < b)%Q.
Proof.
  unfold Qltb. rewrite negb_true_iff.
  split; intros H.
  - apply Qnot_le_lt. intros Hle. apply Qle_bool_iff in Hle. congruence.
  - destruct (Qle_bool b a) eqn:E; [|reflexivity].
    apply Qle_bool_iff in E. exfalso. exact (Qlt_not_le _ _ H E).
Qed.

Lemma Qltb_false (a b : Q) : Qltb a b = false <-> (b <= a)%Q.
Proof.
  unfold Qltb. rewrite negb_false_iff. apply Qle_bool_iff.
Qed.

Lemma truediv_Returned (a b q : Q) :
  truediv a b = Returned q -> ~ (b == 0)%Q /\ q = (a / b)%Q.
Proof.
  unfold truediv. destruct (Qeq_bool b 0) eqn:E; [discriminate|].
  intros [= <-]. split; [|reflexivity].
  intros Hb. apply Qeq_bool_iff in Hb. congruence.
Qed.


(** *** Rounding *)

Lemma round_half_even_bounds (x : Q) :
  (inject_Z (Qfloor x) <= inject_Z (round_half_even x))%Q
  /\ (inject_Z (round_half_even x) <= inject_Z (Qfloor x) + 1)%Q.
Proof.
  unfold round_half_even.
  destruct (_ ?= _)%Q; [destruct (Z.even _)| |];
    rewrite ?inject_Z_plus; change (inject_Z 1) with 1%Q; split; lra.
Qed.

Lemma round_half_even_mono (x y : Q) :
  (x <= y)%Q -> round_half_even x <= round_half_even y.
Proof.
  intros Hxy.
  pose proof (Qfloor_resp_le _ _ Hxy) as Hfl.
  destruct (Z.eq_dec (Qfloor x) (Qfloor y)) as [E|E].
  - unfold round_half_even. rewrite <- E.
    destruct (Qcompare_spec (x - inject_Z (Qfloor x)) (1 # 2)) as [Hx|Hx|Hx];
      destruct (Qcompare_spec (y - inject_Z (Qfloor x)) (1 # 2)) as [Hy|Hy|Hy];
      try destruct (Z.even (Qfloor x)); try lia; exfalso; lra.
  - destruct (round_half_even_bounds x) as [_ Hx].
    destruct (round_half_even_bounds y) as [Hy _].
    change 1%Q with (inject_Z 1) in Hx.
    rewrite <- inject_Z_plus, <- Zle_Qle in Hx. rewrite <- Zle_Qle in Hy. lia.
Qed.

Lemma round_half_even_comp (x y : Q) : (x == y)%Q -> round_half_even x = round_half_even y.
Proof.
  intros H. apply Z.le_antisymm; apply round_half_even_mono; rewrite H; apply Qle_refl.
Qed.

Lemma round_half_even_Z (z : Z) : round_half_even (inject_Z z) = z.
Proof.
  unfold round_half_even. rewrite Qfloor_Z.
  destruct (Qcompare_spec (inject_Z z - inject_Z z) (1 # 2)) as [H|H|H];
    [exfalso; lra|reflexivity|exfalso; lra].
Qed.


(** *** Powers of two *)

Lemma two_power_pos (e : Z) : (0 < 2 ^ e)%Q.
Proof. apply Qpower_0_lt. reflexivity. Qed.

Lemma two_power_le (a b : Z) : a <= b -> (2 ^ a <= 2 ^ b)%Q.
Proof. intros H. apply Qpower_le_compat_l; [exact H|discriminate]. Qed.

Lemma two_power_plus (a b : Z) : (2 ^ (a + b) == 2 ^ a * 2 ^ b)%Q.
Proof. apply Qpower_plus. discriminate. Qed.

Lemma two_power_Z (n : Z) : 0 <= n -> (inject_Z (2 ^ n) == 2 ^ n)%Q.
Proof. intros H. now rewrite Zpower_Qpower. Qed.

Lemma Qlog2_spec (x : Q) :
  (0 < x)%Q -> (2 ^ Qlog2 x <= x)%Q /\ (x < 2 ^ (Qlog2 x + 1))%Q.
Proof.
  destruct x as [n d]. intros Hx.
  assert (Hn : 0 < n) by (unfold Qlt in Hx; cbn in Hx; lia).
  unfold Qlog2. cbn [Qnum Qden].
  set (a := Z.log2 n). set (b := Z.log2 (Z.pos d)).
  pose proof (Z.log2_nonneg n) as Ha0. pose proof (Z.log2_nonneg (Z.pos d)) as Hb0.
  destruct (Z.log2_spec n Hn) as [Ha1 Ha2].
  destruct (Z.log2_spec (Z.pos d) (Pos2Z.is_pos d)) as [Hb1 Hb2].
  fold a in Ha0, Ha1, Ha2. fold b in Hb0, Hb1, Hb2.
  rewrite Zle_Qle, two_power_Z in Ha1, Hb1 by assumption.
  rewrite Zlt_Qlt, two_power_Z in Ha2, Hb2 by lia.
  change (Z.succ a) with (a + 1) in Ha2. change (Z.succ b) with (b + 1) in Hb2.
  assert (Hd : (0 < inject_Z (Z.pos d))%Q) by (rewrite <- (Zlt_Qlt 0); lia).
  assert (Hxd : (n # d) * inject_Z (Z.pos d) == inject_Z n).
  { rewrite (Qmake_Qdiv n d). field. intros Hz. rewrite Hz in Hd. discriminate. }
  set (x := n # d) in *. set (N := inject_Z n) in *. set (D := inject_Z (Z.pos d)) in *.
  destruct (Qltb x (2 ^ (a - b))) eqn:Hlt.
  - apply Qltb_true in Hlt. split.
    + pose proof (two_power_plus (a - b - 1) (b + 1)) as Hp.
      replace (a - b - 1 + (b + 1)) with a in Hp by lia.
      pose proof (two_power_pos (a - b - 1)) as Hpos.
      nra.
    + now replace (a - b - 1 + 1) with (a - b) by lia.
  - apply Qltb_false in Hlt. split; [exact Hlt|].
    pose proof (two_power_plus (a - b + 1) b) as Hp.
    replace (a - b + 1 + b) with (a + 1) in Hp by lia.
    pose proof (two_power_pos (a - b + 1)) as Hpos.
    nra.
Qed.


Lemma Qlog2_mono (x y : Q) : (0 < x)%Q -> (x <= y)%Q -> Qlog2 x <= Qlog2 y.
Proof.
  intros Hx Hxy.
  assert (Hy : (0 < y)%Q) by (eapply Qlt_le_trans; eassumption).
  destruct (Qlog2_spec x Hx) as [Hlo _]. destruct (Qlog2_spec y Hy) as [_ Hhi].
  assert (H : Qlog2 x < Qlog2 y + 1); [|lia].
  apply (Qpower_lt_compat_l_inv 2); [|reflexivity].
  eapply Qle_lt_trans; [exact Hlo|]. eapply Qle_lt_trans; eassumption.
Qed.

Lemma Qlog2_comp (x y : Q) : (0 < x)%Q -> (x == y)%Q -> Qlog2 x = Qlog2 y.
Proof.
  intros Hx Hxy.
  assert (Hy : (0 < y)%Q) by now rewrite <- Hxy.
  apply Z.le_antisymm; apply Qlog2_mono; try assumption; rewrite Hxy; apply Qle_refl.
Qed.

(** *** Rounding to a double *)

Lemma binary64_eq (x : Q) :
  (binary64 x ==
   inject_Z (round_half_even (x / 2 ^ ulp_exponent x)) * 2 ^ ulp_exponent x)%Q.
Proof. unfold binary64. apply Qred_correct. Qed.

Lemma Qabs_nonzero (x : Q) : ~ (x == 0)%Q -> (0 < Qabs x)%Q.
Proof.
  intros Hx. apply Qabs_case; intros H; apply Qle_lteq in H as [H|H];
    try lra; exfalso; apply Hx; lra.
Qed.

Lemma ulp_exponent_comp (x y : Q) :
  (x == y)%Q -> ~ (x == 0)%Q -> ulp_exponent x = ulp_exponent y.
Proof.
  intros Hxy Hx. unfold ulp_exponent. f_equal. f_equal.
  apply Qlog2_comp; [now apply Qabs_nonzero|now rewrite Hxy].
Qed.

Lemma binary64_comp (x y : Q) : (x == y)%Q -> binary64 x = binary64 y.
Proof.
  intros Hxy. unfold binary64. apply Qred_complete.
  destruct (Qeq_dec x 0) as [Hx|Hx].
  - assert (Hy : (y == 0)%Q) by now rewrite <- Hxy.
    assert (Hz : forall u, round_half_even (x / u) = 0 /\ round_half_even (y / u) = 0).
    { intros u. split; rewrite <- (round_half_even_Z 0) at 1;
        apply round_half_even_comp; unfold Qdiv;
        [transitivity (0 * / u)%Q; [now apply Qmult_comp|apply Qmult_0_l]
        |transitivity (0 * / u)%Q; [now apply Qmult_comp|apply Qmult_0_l]]. }
    rewrite (proj1 (Hz _)), (proj2 (Hz _)), !Qmult_0_l. reflexivity.
  - rewrite <- (ulp_exponent_comp x y Hxy Hx).
    rewrite (round_half_even_comp (x / 2 ^ ulp_exponent x) (y / 2 ^ ulp_exponent x));
      [reflexivity|].
    unfold Qdiv. now apply Qmult_comp.
Qed.

(** A multiple of [2^k] bounds the double of whatever it bounds, as long as
    the last bit kept is not above [2^k]. *)
Lemma binary64_le_grid (x : Q) (z k : Z) :
  ulp_exponent x <= k -> (x <= inject_Z z * 2 ^ k)%Q ->
  (binary64 x <= inject_Z z * 2 ^ k)%Q.
Proof.
  intros He Hx. rewrite binary64_eq.
  set (e := ulp_exponent x) in *.
  pose proof (two_power_pos e) as Hpos.
  assert (Hk : (2 ^ k == inject_Z (2 ^ (k - e)) * 2 ^ e)%Q).
  { rewrite two_power_Z by lia. rewrite <- two_power_plus. now replace (k - e + e) with k by lia. }
  rewrite Hk, Qmult_assoc, <- inject_Z_mult in Hx |- *.
  apply Qmult_le_compat_r; [|lra].
  rewrite <- Zle_Qle. rewrite <- (round_half_even_Z (z * 2 ^ (k - e))).
  apply round_half_even_mono. apply Qle_shift_div_r; assumption.
Qed.

Lemma binary64_ge_grid (x : Q) (z k : Z) :
  ulp_exponent x <= k -> (inject_Z z * 2 ^ k <= x)%Q ->
  (inject_Z z * 2 ^ k <= binary64 x)%Q.
Proof.
  intros He Hx. rewrite binary64_eq.
  set (e := ulp_exponent x) in *.
  pose proof (two_power_pos e) as Hpos.
  assert (Hk : (2 ^ k == inject_Z (2 ^ (k - e)) * 2 ^ e)%Q).
  { rewrite two_power_Z by lia. rewrite <- two_power_plus. now replace (k - e + e) with k by lia. }
  rewrite Hk, Qmult_assoc, <- inject_Z_mult in Hx |- *.
  apply Qmult_le_compat_r; [|lra].
  rewrite <- Zle_Qle. rewrite <- (round_half_even_Z (z * 2 ^ (k - e))) at 1.
  apply round_half_even_mono. apply Qle_shift_div_l; assumption.
Qed.

Lemma ulp_exponent_mono (x y : Q) :
  ~ (x == 0)%Q -> (Qabs x <= Qabs y)%Q -> ulp_exponent x <= ulp_exponent y.
Proof.
  intros Hx Hxy. unfold ulp_exponent.
  pose proof (Qlog2_mono _ _ (Qabs_nonzero x Hx) Hxy). lia.
Qed.

Lemma binary64_mono_pos (x y : Q) :
  (0 < x)%Q -> (x <= y)%Q -> (binary64 x <= binary64 y)%Q.
Proof.
  intros Hx Hxy.
  assert (Hy : (0 < y)%Q) by lra.
  assert (Hax : (Qabs x == x)%Q) by (apply Qabs_pos; lra).
  assert (Hay : (Qabs y == y)%Q) by (apply Qabs_pos; lra).
  assert (He : ulp_exponent x <= ulp_exponent y).
  { apply ulp_exponent_mono; [lra|]. now rewrite Hax, Hay. }
  destruct (Z.eq_dec (ulp_exponent x) (ulp_exponent y)) as [E|E].
  - rewrite !binary64_eq, <- E.
    pose proof (two_power_pos (ulp_exponent x)) as Hpos.
    apply Qmult_le_compat_r; [|lra].
    rewrite <- Zle_Qle. apply round_half_even_mono.
    apply Qmult_le_compat_r; [exact Hxy|]. apply Qinv_le_0_compat. lra.
  - set (lx := Qlog2 (Qabs x)). set (ly := Qlog2 (Qabs y)).
    assert (Hlxy : ulp_exponent y = ly - 52 /\ lx + 1 <= ly /\ ulp_exponent x <= ly).
    { unfold ulp_exponent in *. fold lx ly in He, E |- *. lia. }
    destruct Hlxy as (Hey & Hl & Hex).
    destruct (Qlog2_spec (Qabs x) (Qabs_nonzero x ltac:(lra))) as [_ Hxhi].
    destruct (Qlog2_spec (Qabs y) (Qabs_nonzero y ltac:(lra))) as [Hylo _].
    fold lx in Hxhi. fold ly in Hylo. rewrite Hax in Hxhi. rewrite Hay in Hylo.
    pose proof (two_power_le (lx + 1) ly Hl) as Hp.
    apply Qle_trans with (inject_Z 1 * 2 ^ ly)%Q.
    + apply binary64_le_grid; [exact Hex|]. change (inject_Z 1) with 1%Q. lra.
    + apply binary64_ge_grid; [lia|]. change (inject_Z 1) with 1%Q. lra.
Qed.

Lemma binary64_mono_neg (x y : Q) :
  (y < 0)%Q -> (x <= y)%Q -> (binary64 x <= binary64 y)%Q.
Proof.
  intros Hy Hxy.
  assert (Hx : (x < 0)%Q) by lra.
  assert (Hax : (Qabs x == - x)%Q) by (apply Qabs_neg; lra).
  assert (Hay : (Qabs y == - y)%Q) by (apply Qabs_neg; lra).
  assert (He : ulp_exponent y <= ulp_exponent x).
  { apply ulp_exponent_mono; [lra|]. rewrite Hax, Hay. lra. }
  destruct (Z.eq_dec (ulp_exponent y) (ulp_exponent x)) as [E|E].
  - rewrite !binary64_eq, E.
    pose proof (two_power_pos (ulp_exponent x)) as Hpos.
    apply Qmult_le_compat_r; [|lra].
    rewrite <- Zle_Qle. apply round_half_even_mono.
    apply Qmult_le_compat_r; [exact Hxy|]. apply Qinv_le_0_compat. lra.
  - set (lx := Qlog2 (Qabs x)). set (ly := Qlog2 (Qabs y)).
    assert (Hlxy : ulp_exponent x = lx - 52 /\ ly + 1 <= lx /\ ulp_exponent y <= lx).
    { unfold ulp_exponent in *. fold lx ly in He, E |- *. lia. }
    destruct Hlxy as (Hex & Hl & Hey).
    destruct (Qlog2_spec (Qabs x) (Qabs_nonzero x ltac:(lra))) as [Hxlo _].
    destruct (Qlog2_spec (Qabs y) (Qabs_nonzero y ltac:(lra))) as [_ Hyhi].
    fold lx in Hxlo. fold ly in Hyhi. rewrite Hax in Hxlo. rewrite Hay in Hyhi.
    pose proof (two_power_le (ly + 1) lx Hl) as Hp.
    apply Qle_trans with (inject_Z (-1) * 2 ^ lx)%Q.
    + apply binary64_le_grid; [lia|]. change (inject_Z (-1)) with (-1)%Q. lra.
    + apply binary64_ge_grid; [exact Hey|]. change (inject_Z (-1)) with (-1)%Q. lra.
Qed.

Lemma binary64_nonneg (x : Q) : (0 <= x)%Q -> (0 <= binary64 x)%Q.
Proof.
  intros Hx. rewrite <- (Qmult_0_l (2 ^ ulp_exponent x)).
  apply (binary64_ge_grid x 0); [lia|]. now rewrite Qmult_0_l.
Qed.

Lemma binary64_nonpos (x : Q) : (x <= 0)%Q -> (binary64 x <= 0)%Q.
Proof.
  intros Hx. rewrite <- (Qmult_0_l (2 ^ ulp_exponent x)).
  apply (binary64_le_grid x 0); [lia|]. now rewrite Qmult_0_l.
Qed.

(** Rounding to a double is monotone. *)
Lemma binary64_mono (x y : Q) : (x <= y)%Q -> (binary64 x <= binary64 y)%Q.
Proof.
  intros Hxy.
  destruct (Qlt_le_dec 0 x) as [Hx|Hx]; [now apply binary64_mono_pos|].
  destruct (Qlt_le_dec y 0) as [Hy|Hy]; [now apply binary64_mono_neg|].
  apply Qle_trans with 0%Q; [now apply binary64_nonpos|now apply binary64_nonneg].
Qed.



(** *** Doubles that stay finite *)

Lemma ulp_exponent_bound (x : Q) (k : Z) :
  -1074 <= k -> ~ (x == 0)%Q -> (Qabs x <= 2 ^ k)%Q -> ulp_exponent x <= k.
Proof.
  intros Hk Hx Hle. unfold ulp_exponent.
  destruct (Qlog2_spec _ (Qabs_nonzero x Hx)) as [Hlo _].
  assert (Qlog2 (Qabs x) < k + 1); [|lia].
  apply (Qpower_lt_compat_l_inv 2); [|reflexivity].
  eapply Qle_lt_trans; [exact Hlo|]. eapply Qle_lt_trans; [exact Hle|].
  apply Qpower_lt_compat_l; [lia|reflexivity].
Qed.

Lemma binary64_zero (x : Q) : (x == 0)%Q -> binary64 x = 0%Q.
Proof. intros H. now rewrite (binary64_comp x 0 H). Qed.

Lemma binary64_bounded (x : Q) (k : Z) :
  -1074 <= k -> (Qabs x <= 2 ^ k)%Q -> (Qabs (binary64 x) <= 2 ^ k)%Q.
Proof.
  intros Hk Hle.
  destruct (Qeq_dec x 0) as [Hx|Hx].
  - rewrite (binary64_zero x Hx). apply Qlt_le_weak, two_power_pos.
  - pose proof (ulp_exponent_bound x k Hk Hx Hle) as He.
    apply Qabs_Qle_condition in Hle as [Hlo Hhi].
    apply Qabs_Qle_condition. split.
    + apply Qle_trans with (inject_Z (-1) * 2 ^ k)%Q.
      * change (inject_Z (-1)) with (-1)%Q. lra.
      * apply binary64_ge_grid; [exact He|]. change (inject_Z (-1)) with (-1)%Q. lra.
    + apply Qle_trans with (inject_Z 1 * 2 ^ k)%Q.
      * apply binary64_le_grid; [exact He|]. change (inject_Z 1) with 1%Q. lra.
      * change (inject_Z 1) with 1%Q. lra.
Qed.

Lemma nearest_float_finite (x : Q) :
  (Qabs x <= 2 ^ 1023)%Q -> nearest_float x = Finite (binary64 x).
Proof.
  intros H. unfold nearest_float.
  pose proof (binary64_bounded x 1023 ltac:(lia) H) as Hb.
  destruct (Qle_bool _ _) eqn:E; [|reflexivity].
  apply Qle_bool_iff in E. exfalso.
  assert (Hlt : (2 ^ 1023 < inject_Z (2 ^ 1024))%Q).
  { rewrite two_power_Z by lia. apply Qpower_lt_compat_l; [lia|reflexivity]. }
  lra.
Qed.

Lemma Z_bound_Q (z k : Z) : 0 <= k -> Z.abs z <= 2 ^ k -> (Qabs (inject_Z z) <= 2 ^ k)%Q.
Proof.
  intros Hk H. change (Qabs (inject_Z z)) with (inject_Z (Z.abs z)).
  rewrite <- two_power_Z by exact Hk. now rewrite <- Zle_Qle.
Qed.

Lemma float_of_int_finite (z : Z) :
  Z.abs z <= 2 ^ 1023 -> float_of_int z = Returned (Finite (binary64 (inject_Z z))).
Proof.
  intros H. unfold float_of_int.
  now rewrite (nearest_float_finite _ (Z_bound_Q z 1023 ltac:(lia) H)).
Qed.

(** An amount printed in ether: [z / 1e18]. *)
Lemma in_ether_returns (z : Z) :
  Z.abs z <= 2 ^ 1023 ->
  exists f, num_truediv (Int z) (Float AsWritten.float_1e18) = Returned f.
Proof.
  intros H. unfold num_truediv, to_float. rewrite (float_of_int_finite z H).
  cbn [bind]. eexists. reflexivity.
Qed.

(** *** Numbers of either kind *)

Lemma num_lt_Int (x y : Z) : num_lt (Int x) (Int y) = (x <? y).
Proof.
  unfold num_lt. cbn [exact float_lt].
  destruct (Z.ltb_spec x y) as [H|H].
  - apply Qltb_true. now rewrite <- Zlt_Qlt.
  - apply Qltb_false. now rewrite <- Zle_Qle.
Qed.

Lemma num_max_Int (x y : Z) : num_max (Int x) (Int y) = Int (Z.max x y).
Proof.
  unfold num_max. rewrite num_lt_Int.
  destruct (Z.ltb_spec x y); f_equal; lia.
Qed.

Lemma Qmax_inject_Z (x y : Z) : (Qmax (inject_Z x) (inject_Z y) == inject_Z (Z.max x y))%Q.
Proof.
  destruct (Z.le_ge_cases x y) as [H|H].
  - rewrite Z.max_r by exact H. apply Q.max_r. now rewrite <- Zle_Qle.
  - rewrite Z.max_l by exact H. apply Q.max_l. now rewrite <- Zle_Qle.
Qed.



(** *** The accuracy of a rounding *)








(** *** The files as they run *)

(** The gas estimate returns only when gas is free: any other gas price
    makes [from_wei] return a [Decimal], whose product with [1e18] raises. *)
Lemma as_written_gas_cost (ch : Chain) :
  AsWritten._estimate_gas_cost ch =
  if (gas_price ch =? 0)%N then Returned 0 else Raised.
Proof.
  unfold AsWritten._estimate_gas_cost, AsWritten.from_wei.
  destruct (gas_price ch) as [|p]; [vm_compute; reflexivity|].
  change (200000 * Z.of_N (N.pos p) =? 0) with false. cbv iota.
  destruct (_ || _); reflexivity.
Qed.

(** Reading [UNISWAP_ROUTER_ABI] raises inside the [try] block, whatever
    the routers would answer. *)
Lemma as_written_prices (ch : Chain) (token_pair : string * string) :
  AsWritten.get_current_prices ch token_pair = (Finite 0, Finite 0).
Proof.
  unfold AsWritten.get_current_prices, AsWritten.get_current_prices_try.
  destruct token_pair as [a b].
  destruct (to_checksum_address ch a); [|reflexivity]. cbn [bind].
  destruct (to_checksum_address ch b); [|reflexivity]. cbn [bind].
  destruct (to_checksum_address ch routers_uniswap); reflexivity.
Qed.

Lemma as_written_no_spread (ch : Chain) (a b : string) :
  AsWritten.evaluate_prices ch a b (Finite 0) (Finite 0) = Returned [].
Proof. reflexivity. Qed.

Lemma as_written_monitor_loop (ch : Chain) (token_pairs : list (string * string)) :
  forall acc, AsWritten.monitor_loop ch token_pairs acc = Returned acc.
Proof.
  induction token_pairs as [|[a b] rest IH]; intros acc; [reflexivity|].
  cbn [AsWritten.monitor_loop]. rewrite as_written_prices, as_written_no_spread.
  cbn [bind]. rewrite app_nil_r. apply IH.
Qed.

Lemma as_written_monitor (ch : Chain) (token_pairs : list (string * string)) :
  AsWritten.monitor_opportunities ch token_pairs = Returned [].
Proof. apply as_written_monitor_loop. Qed.

(** Reading [datetime] raises while [trade_data] is built. *)
Lemma as_written_trade_data (opp : AsWritten.ArbitrageOpportunity) :
  AsWritten.trade_data opp = Raised.
Proof.
  unfold AsWritten.trade_data.
  repeat match goal with
         | |- bind (num_truediv ?x ?y) _ = Raised =>
             destruct (num_truediv x y); cbn [bind]; [|reflexivity]
         end.
  reflexivity.
Qed.

Lemma as_written_execute (ch : Chain) (bot : AsWritten.Bot)
      (opp : AsWritten.ArbitrageOpportunity) :
  AsWritten.execute_opportunity ch bot opp =
  {| AsWritten.returned := Raised; AsWritten.bot_after := bot; AsWritten.events := [] |}.
Proof. unfold AsWritten.execute_opportunity. now rewrite as_written_trade_data. Qed.

Lemma as_written_cycle (ch : Chain) (bot : AsWritten.Bot)
      (token_pairs : list (string * string)) :
  AsWritten.run_arbitrage_cycle ch bot token_pairs =
  (bot, match token_pairs with [] => Returned [] | _ :: _ => Raised end).
Proof.
  unfold AsWritten.run_arbitrage_cycle.
  destruct token_pairs as [|token_pair rest].
  - cbn [AsWritten.log_all_prices]. now rewrite as_written_monitor.
  - cbn [AsWritten.log_all_prices]. rewrite as_written_prices. reflexivity.
Qed.

(** The records the loop builds. *)
Lemma as_written_evaluate_prices_inv (ch : Chain) (a b : string) (u s : float)
      (found : list AsWritten.ArbitrageOpportunity) (o : AsWritten.ArbitrageOpportunity) :
  AsWritten.evaluate_prices ch a b u s = Returned found -> In o found ->
  exists e g,
    AsWritten.gross_profit (float_abs (float_sub u s)) (10 ^ 18) u s = Returned e
    /\ AsWritten._estimate_gas_cost ch = Returned g
    /\ g < e
    /\ o = AsWritten.mkOpportunity a b (10 ^ 18) (Int e) g (Int (e - g))
             routers_uniswap routers_sushiswap (float_lt s u) (nearest_float (9 # 10)).
Proof.
  unfold AsWritten.evaluate_prices. intros H Hin.
  destruct (float_lt (Finite 0) (float_abs (float_sub u s))).
  - change 1000000000000000000 with (10 ^ 18) in H.
    destruct (AsWritten.gross_profit _ _ u s) as [e|] eqn:He; [|discriminate].
    cbn [bind] in H.
    destruct (AsWritten._estimate_gas_cost ch) as [g|] eqn:Hgas; [|discriminate].
    cbn [bind] in H.
    destruct (g <? e) eqn:Hg; injection H as <-; [|destruct Hin].
    destruct Hin as [<-|[]]. apply Z.ltb_lt in Hg.
    exists e, g. split; [reflexivity|]. split; [reflexivity|]. split; [exact Hg|reflexivity].
  - injection H as <-. destruct Hin.
Qed.

Lemma as_written_monitor_loop_Forall (ch : Chain) (P : AsWritten.ArbitrageOpportunity -> Prop) :
  (forall a b u s found o,
      AsWritten.evaluate_prices ch a b u s = Returned found -> In o found -> P o) ->
  forall token_pairs acc opps,
    Forall P acc -> AsWritten.monitor_loop ch token_pairs acc = Returned opps ->
    Forall P opps.
Proof.
  intros HP token_pairs.
  induction token_pairs as [|[a b] rest IH]; intros acc opps Hacc H; cbn in H.
  - now injection H as <-.
  - destruct (AsWritten.get_current_prices ch (a, b)) as [u s].
    destruct (AsWritten.evaluate_prices ch a b u s) as [found|] eqn:Hf; [|discriminate].
    cbn [bind] in H. apply (IH (acc ++ found)); [|exact H].
    apply Forall_app. split; [exact Hacc|].
    apply List.Forall_forall. intros o Ho. eapply HP; eassumption.
Qed.


Lemma as_written_validate_loop_filter (ch : Chain)
      (opps : list AsWritten.ArbitrageOpportunity) :
  forall acc validated,
    AsWritten.validate_loop ch opps acc = Returned validated ->
    validated = acc ++ List.filter (passes ch) opps.
Proof.
  induction opps as [|opp rest IH]; intros acc validated H; cbn in H.
  - injection H as <-. cbn. now rewrite app_nil_r.
  - cbn [List.filter]. unfold passes at 1.
    destruct (AsWritten.validate ch opp) as [[|]|]; cbn [bind] in H; [| |discriminate].
    + apply IH in H. now rewrite <- app_assoc in H.
    + now apply IH in H.
Qed.






(** *** C1 *)





(** *** Failed quotes *)

Ltac step_bind H :=
  match goal with
  | |- context [bind ?r _] =>
      let E := fresh "E" in
      destruct r eqn:E; try rewrite E in H; cbn [bind] in H |- *
  end.

Lemma get_current_prices_try_uni_failed (ch : Chain) (a b : string) :
  side_quote ch routers_uniswap a b = Raised ->
  get_current_prices_try ch (a, b) = Raised.
Proof.
  unfold side_quote, get_current_prices_try. intros H. cbv zeta.
  repeat (step_bind H; try reflexivity; try discriminate).
Qed.

Lemma get_current_prices_try_sushi_failed (ch : Chain) (a b : string) :
  side_quote ch routers_sushiswap a b = Raised ->
  get_current_prices_try ch (a, b) = Raised.
Proof.
  unfold side_quote, get_current_prices_try. intros H. cbv zeta.
  repeat (step_bind H; try reflexivity; try discriminate).
Qed.

Lemma get_current_prices_failed (ch : Chain) (a b : string) :
  side_quote ch routers_uniswap a b = Raised
  \/ side_quote ch routers_sushiswap a b = Raised ->
  get_current_prices ch (a, b) = (0%Q, 0%Q).
Proof.
  intros H. unfold get_current_prices.
  destruct H as [H|H];
    [apply get_current_prices_try_uni_failed in H
    |apply get_current_prices_try_sushi_failed in H];
    now rewrite H.
Qed.

Lemma fetch_dex_price_failed (call : result (list N)) (amount_in : Z) :
  call = Raised
  \/ (exists amounts, call = Returned amounts /\ (length amounts < 2)%nat)
  \/ amount_in = 0 ->
  _fetch_dex_price call amount_in = 0%Q.
Proof.
  unfold _fetch_dex_price. intros [->|[(amounts & -> & Hlen)| ->]].
  - reflexivity.
  - cbn [bind]. unfold index.
    destruct (nth_error amounts 1) eqn:E; [|reflexivity].
    assert (1 < length amounts)%nat by (apply List.nth_error_Some; congruence).
    lia.
  - destruct call as [amounts|]; [|reflexivity]. cbn [bind].
    destruct (index amounts 1); reflexivity.
Qed.

(** *** C2 *)

(** C2, counterexample.  A quote call that raises makes each quote
    operation return the number zero, the same value it returns for a
    successful call that quotes zero: no distinct signal is produced. *)
Lemma C2_failed_quote_is_zero :
  _fetch_dex_price Raised one_ether = 0%Q
  /\ (_fetch_dex_price (Returned [1000000000000000000; 0]%N) one_ether == 0)%Q
  /\ side_quote uni_down routers_uniswap TOKENS_WETH TOKENS_USDC = Raised
  /\ get_current_prices uni_down weth_usdc = (0%Q, 0%Q)
  /\ (fst (get_current_prices zero_quotes weth_usdc) == 0)%Q
  /\ (snd (get_current_prices zero_quotes weth_usdc) == 0)%Q
  /\ contract_profit_of uni_down opp_50 = 0
  /\ contract_profit_of zero_quotes opp_50 = 0.
Proof.
  repeat split; vm_compute; reflexivity.
Qed.

(** C2, as amended.  On every transport, contract-revert or
    malformed-response condition the quote operations return the number zero:
    [_fetch_dex_price] returns 0.0, [get_current_prices] returns (0.0, 0.0)
    for both sides as soon as one side fails, and
    [check_arbitrage_opportunity] returns 0; a successful call that quotes
    zero yields the same value. *)
Theorem C2_quote_failure_returns_zero (ch : Chain) :
  (forall call amount_in,
      call = Raised
      \/ (exists amounts, call = Returned amounts /\ (length amounts < 2)%nat)
      \/ amount_in = 0 ->
      _fetch_dex_price call amount_in = 0%Q)
  /\ (forall a b,
         side_quote ch routers_uniswap a b = Raised
         \/ side_quote ch routers_sushiswap a b = Raised ->
         get_current_prices ch (a, b) = (0%Q, 0%Q))
  /\ (forall a b amt r1 r2 rev,
         checkArbitrageOpportunity ch a b amt r1 r2 rev = Raised
         \/ checkArbitrageOpportunity ch a b amt r1 r2 rev = Returned 0%N ->
         check_arbitrage_opportunity ch a b amt r1 r2 rev = 0).
Proof.
  split; [|split].
  - apply fetch_dex_price_failed.
  - apply get_current_prices_failed.
  - intros a b amt r1 r2 rev [H|H];
      unfold check_arbitrage_opportunity; now rewrite H.
Qed.

Lemma C2_quote_failure_returns_zero_witness :
  _fetch_dex_price (Returned [1000000000000000000]%N) one_ether = 0%Q
  /\ get_current_prices sushi_malformed (TOKENS_WETH, TOKENS_USDC) = (0%Q, 0%Q)
  /\ check_arbitrage_opportunity uni_down TOKENS_WETH TOKENS_USDC one_ether
       ROUTERS_UNISWAP_V2 ROUTERS_SUSHISWAP false = 0.
Proof.
  split; [|split].
  - apply (proj1 (C2_quote_failure_returns_zero uni_down)).
    right. left. eexists. split; [reflexivity|]. cbn. lia.
  - apply (proj1 (proj2 (C2_quote_failure_returns_zero sushi_malformed))).
    right. vm_compute. reflexivity.
  - apply (proj2 (proj2 (C2_quote_failure_returns_zero uni_down))).
    left. reflexivity.
Defined.

(** *** C3 *)

Lemma equal_prices_no_spread (u s : Q) :
  (u == s)%Q -> Qltb 0 (Qabs (u - s)) = false.
Proof.
  intros H. apply Qltb_false.
  assert (Hz : (u - s == 0)%Q) by (rewrite H; ring).
  rewrite Hz. discriminate.
Qed.

Lemma evaluate_prices_equal (ch : Chain) (a b : string) (u s : Q) :
  (u == s)%Q -> evaluate_prices ch a b u s = Returned [].
Proof.
  intros H. unfold evaluate_prices. now rewrite (equal_prices_no_spread u s H).
Qed.

Lemma monitor_loop_app (ch : Chain) (l1 l2 : list (string * string)) :
  forall acc,
    monitor_loop ch (l1 ++ l2) acc =
    (acc' <- monitor_loop ch l1 acc ;; monitor_loop ch l2 acc').
Proof.
  induction l1 as [|[a b] l1 IH]; intros acc; [reflexivity|].
  cbn [app monitor_loop].
  destruct (get_current_prices ch (a, b)) as [u s].
  destruct (evaluate_prices ch a b u s); cbn [bind]; [apply IH|reflexivity].
Qed.

Lemma monitor_loop_skip (ch : Chain) (a b : string) (rest : list (string * string)) acc :
  evaluate_prices ch a b (fst (get_current_prices ch (a, b)))
                  (snd (get_current_prices ch (a, b))) = Returned [] ->
  monitor_loop ch ((a, b) :: rest) acc = monitor_loop ch rest acc.
Proof.
  intros H. cbn [monitor_loop].
  destruct (get_current_prices ch (a, b)) as [u s]. cbn [fst snd] in H.
  rewrite H. cbn [bind]. now rewrite app_nil_r.
Qed.

(** C3, counterexample.  With the Uniswap router unreachable and Sushiswap
    quoting 3050, the snapshot handed to the evaluation is (0.0, 0.0): the
    absent side is replaced by zero (and so is the side that answered), and
    the evaluation runs on these zeros. *)
Lemma C3_absent_side_is_zero :
  side_quote uni_down routers_uniswap TOKENS_WETH TOKENS_USDC = Raised
  /\ side_quote uni_down routers_sushiswap TOKENS_WETH TOKENS_USDC = Returned 3050000000%N
  /\ get_current_prices uni_down weth_usdc = (0%Q, 0%Q)
  /\ monitor_loop uni_down [weth_usdc] [] =
     (found <- evaluate_prices uni_down TOKENS_WETH TOKENS_USDC 0 0 ;;
      monitor_loop uni_down [] ([] ++ found)).
Proof.
  repeat split; vm_compute; reflexivity.
Qed.

(** C3, as amended.  When either side of the snapshot is absent (a quote
    failed) or the two prices are equal, the evaluation of the pair returns
    normally with no Opportunity, and the pair contributes nothing to the
    list [monitor_opportunities] returns: the result is the one obtained
    without the pair.  A failed quote on either side makes the snapshot
    (0.0, 0.0); it is evaluated like any other and rejected because its
    price difference is zero. *)
Theorem C3_no_opportunity_without_spread (ch : Chain) (a b : string) :
  side_quote ch routers_uniswap a b = Raised
  \/ side_quote ch routers_sushiswap a b = Raised
  \/ (fst (get_current_prices ch (a, b)) == snd (get_current_prices ch (a, b)))%Q ->
  evaluate_prices ch a b (fst (get_current_prices ch (a, b)))
                  (snd (get_current_prices ch (a, b))) = Returned []
  /\ (forall before after,
         monitor_opportunities ch (before ++ (a, b) :: after) =
         monitor_opportunities ch (before ++ after))
  /\ (side_quote ch routers_uniswap a b = Raised
      \/ side_quote ch routers_sushiswap a b = Raised ->
      get_current_prices ch (a, b) = (0%Q, 0%Q)
      /\ evaluate_prices ch a b 0 0 = Returned []).
Proof.
  intros H.
  assert (Hnone : evaluate_prices ch a b (fst (get_current_prices ch (a, b)))
                    (snd (get_current_prices ch (a, b))) = Returned []).
  { destruct H as [H|[H|H]].
    - rewrite (get_current_prices_failed ch a b (or_introl H)).
      now apply evaluate_prices_equal.
    - rewrite (get_current_prices_failed ch a b (or_intror H)).
      now apply evaluate_prices_equal.
    - now apply evaluate_prices_equal. }
  split; [exact Hnone|]. split.
  - intros before after. unfold monitor_opportunities.
    rewrite !monitor_loop_app.
    destruct (monitor_loop ch before []) as [acc|]; cbn [bind]; [|reflexivity].
    now apply monitor_loop_skip.
  - intros Hfail. split; [now apply get_current_prices_failed|].
    now apply evaluate_prices_equal.
Qed.

Lemma C3_no_opportunity_without_spread_witness :
  (evaluate_prices uni_down TOKENS_WETH TOKENS_USDC
     (fst (get_current_prices uni_down (TOKENS_WETH, TOKENS_USDC)))
     (snd (get_current_prices uni_down (TOKENS_WETH, TOKENS_USDC))) = Returned []
   /\ (forall before after,
          monitor_opportunities uni_down (before ++ (TOKENS_WETH, TOKENS_USDC) :: after) =
          monitor_opportunities uni_down (before ++ after))
   /\ get_current_prices uni_down (TOKENS_WETH, TOKENS_USDC) = (0%Q, 0%Q)
   /\ evaluate_prices uni_down TOKENS_WETH TOKENS_USDC 0 0 = Returned [])
  /\ evaluate_prices no_spread TOKENS_WETH TOKENS_USDC
       (fst (get_current_prices no_spread (TOKENS_WETH, TOKENS_USDC)))
       (snd (get_current_prices no_spread (TOKENS_WETH, TOKENS_USDC))) = Returned [].
Proof.
  assert (Hdown : side_quote uni_down routers_uniswap TOKENS_WETH TOKENS_USDC = Raised)
    by (vm_compute; reflexivity).
  split.
  - destruct (C3_no_opportunity_without_spread uni_down TOKENS_WETH TOKENS_USDC
                (or_introl Hdown)) as (H1 & H2 & H3).
    split; [exact H1|]. split; [exact H2|]. exact (H3 (or_introl Hdown)).
  - refine (proj1 (C3_no_opportunity_without_spread no_spread TOKENS_WETH TOKENS_USDC _)).
    right. right. vm_compute. reflexivity.
Defined.

(** *** C4 *)





(** *** C5 and C9: the validation test *)

Lemma relative_difference_eq (l a : Z) :
  (inject_Z (Z.abs (l - a)) / inject_Z (Z.max l a) == relative_difference l a)%Q.
Proof.
  unfold relative_difference. rewrite Qmax_inject_Z.
  change (inject_Z (Z.abs (l - a))) with (Qabs (inject_Z (l - a))).
  unfold Zminus. now rewrite inject_Z_plus, inject_Z_opp.
Qed.

Lemma relative_difference_range (l a : Z) :
  0 < l -> 0 <= a -> (0 <= relative_difference l a)%Q /\ (relative_difference l a <= 1)%Q.
Proof.
  intros Hl Ha. rewrite <- relative_difference_eq.
  assert (Hm : (0 < inject_Z (Z.max l a))%Q) by (rewrite <- (Zlt_Qlt 0); lia).
  split.
  - apply Qle_shift_div_l; [exact Hm|]. rewrite Qmult_0_l, <- (Zle_Qle 0). lia.
  - apply Qle_shift_div_r; [exact Hm|]. rewrite Qmult_1_l, <- Zle_Qle. lia.
Qed.

Lemma as_written_profits_agree (l a : Z) :
  0 < l -> 0 <= a ->
  AsWritten.profits_agree (Int l) a =
  Returned (Qltb (binary64 (relative_difference l a)) (binary64 (1 # 10))).
Proof.
  intros Hl Ha. unfold AsWritten.profits_agree.
  cbn [num_sub bind num_abs]. rewrite num_max_Int. cbn [num_truediv].
  unfold int_truediv. destruct (Z.eqb_spec (Z.max l a) 0) as [E|_]; [lia|].
  destruct (relative_difference_range l a Hl Ha) as [Hlo Hhi].
  rewrite nearest_float_finite.
  - cbn [bind]. rewrite (binary64_comp _ _ (relative_difference_eq l a)).
    reflexivity.
  - rewrite relative_difference_eq. rewrite Qabs_pos by exact Hlo.
    eapply Qle_trans; [exact Hhi|]. apply Qlt_le_weak. reflexivity.
Qed.

Lemma passes_within_tolerance (r : Q) :
  Qltb (binary64 r) (binary64 (1 # 10)) = true -> (r < 1 # 10)%Q.
Proof.
  intros H. apply Qltb_true in H. apply Qnot_le_lt. intros Hle.
  apply binary64_mono in Hle. lra.
Qed.

Lemma well_within_tolerance_passes (r : Q) :
  (r <= (1 # 10) - 2 ^ (-56))%Q -> Qltb (binary64 r) (binary64 (1 # 10)) = true.
Proof.
  intros H. apply Qltb_true. apply binary64_mono in H.
  eapply Qle_lt_trans; [exact H|]. vm_compute. reflexivity.
Qed.

Lemma as_written_validate (ch : Chain) (opp : AsWritten.ArbitrageOpportunity) (l : Z) :
  AsWritten.expected_profit opp = Int l -> 0 < l <= 2 ^ 1023 ->
  0 <= AsWritten.contract_profit_of ch opp < 2 ^ 256 ->
  AsWritten.validate ch opp =
  Returned (Qltb (binary64 (relative_difference l (AsWritten.contract_profit_of ch opp)))
                 (binary64 (1 # 10))).
Proof.
  intros Hl Hrange Hc. unfold AsWritten.validate. rewrite Hl.
  destruct (in_ether_returns l ltac:(lia)) as [f1 ->]. cbn [bind].
  destruct (in_ether_returns (AsWritten.contract_profit_of ch opp)) as [f2 ->].
  { assert (2 ^ 256 <= 2 ^ 1023) by (apply Z.pow_le_mono_r; lia). lia. }
  cbn [bind]. apply as_written_profits_agree; lia.
Qed.

(** C5, counterexample.  For a local profit of 9 * 10^17 wei and an
    authoritative 10^18 - 1 wei the relative difference is below 10%, yet
    the quotient rounds to the double 0.1 and validation fails. *)
Lemma C5_within_tolerance_rejected :
  within_tolerance (inject_Z 900000000000000000) (inject_Z 999999999999999999) (1 # 10)
  /\ AsWritten.contract_profit_of just_under_one_ether opp_09 = 999999999999999999
  /\ AsWritten.profits_agree (Int 900000000000000000) 999999999999999999 = Returned false
  /\ AsWritten.validate just_under_one_ether opp_09 = Returned false
  /\ AsWritten.validate_loop just_under_one_ether [opp_09] [] = Returned [].
Proof.
  split; [vm_compute; reflexivity|].
  repeat split; vm_compute; reflexivity.
Qed.

(** C5, as amended.  For an Opportunity with a positive integer local profit
    (up to 2^1023) and an authoritative uint256 figure, validation passes
    iff the relative difference |l - a| / max(l, a), rounded to a double, is
    strictly below the double 0.1.  A pass implies a relative difference
    below 10%, and a relative difference below 10% - 2^-56 implies a pass.
    When the authoritative call fails the figure is 0, the quotient is 1 and
    validation fails.  The cycle keeps exactly the Opportunities that pass,
    in order. *)
Theorem C5_validation_tolerance (ch : Chain) (opp : AsWritten.ArbitrageOpportunity)
        (l : Z) :
  AsWritten.expected_profit opp = Int l -> 0 < l <= 2 ^ 1023 ->
  (forall p : N,
      checkArbitrageOpportunity ch (AsWritten.token_a opp) (AsWritten.token_b opp)
        (AsWritten.amount_in opp) ROUTERS_UNISWAP_V2 ROUTERS_SUSHISWAP
        (AsWritten.reverse_order opp) = Returned p ->
      (p < 2 ^ 256)%N ->
      AsWritten.validate ch opp =
      Returned (Qltb (binary64 (relative_difference l (Z.of_N p))) (binary64 (1 # 10)))
      /\ (AsWritten.validate ch opp = Returned true ->
          within_tolerance (inject_Z l) (inject_Z (Z.of_N p)) (1 # 10))
      /\ (within_tolerance (inject_Z l) (inject_Z (Z.of_N p)) ((1 # 10) - 2 ^ (-56)) ->
          AsWritten.validate ch opp = Returned true))
  /\ (checkArbitrageOpportunity ch (AsWritten.token_a opp) (AsWritten.token_b opp)
        (AsWritten.amount_in opp) ROUTERS_UNISWAP_V2 ROUTERS_SUSHISWAP
        (AsWritten.reverse_order opp) = Raised ->
      AsWritten.validate ch opp = Returned false)
  /\ (forall opps validated,
         AsWritten.validate_loop ch opps [] = Returned validated ->
         validated = List.filter (passes ch) opps).
Proof.
  intros Hl Hrange. split; [|split].
  - intros p Hp Hp256.
    assert (Hc : AsWritten.contract_profit_of ch opp = Z.of_N p).
    { unfold AsWritten.contract_profit_of, check_arbitrage_opportunity. now rewrite Hp. }
    assert (Hv : AsWritten.validate ch opp =
                 Returned (Qltb (binary64 (relative_difference l (Z.of_N p)))
                                (binary64 (1 # 10)))).
    { rewrite <- Hc. apply as_written_validate; [exact Hl|exact Hrange|].
      rewrite Hc. split; [lia|]. change (2 ^ 256) with (Z.of_N (2 ^ 256)). lia. }
    split; [exact Hv|]. rewrite Hv. split.
    + intros [= H]. apply passes_within_tolerance in H. exact H.
    + intros H. f_equal. apply well_within_tolerance_passes.
      apply Qlt_le_weak. exact H.
  - intros Hp.
    assert (Hc : AsWritten.contract_profit_of ch opp = 0).
    { unfold AsWritten.contract_profit_of, check_arbitrage_opportunity. now rewrite Hp. }
    rewrite (as_written_validate ch opp l Hl Hrange) by (rewrite Hc; lia).
    rewrite Hc. f_equal. apply Qltb_false.
    assert (Hone : (relative_difference l 0 == 1)%Q).
    { unfold relative_difference.
      assert (H0 : (0 < inject_Z l)%Q) by (rewrite <- (Zlt_Qlt 0); lia).
      rewrite Q.max_l by (change (inject_Z 0) with 0%Q; lra).
      change (inject_Z 0) with 0%Q.
      rewrite Qabs_pos by lra. field. lra. }
    rewrite (binary64_comp _ _ Hone). vm_compute. discriminate.
  - intros opps validated H. now apply as_written_validate_loop_filter in H.
Qed.

Lemma C5_validation_tolerance_witness :
  (AsWritten.validate spread_50 found_50 =
   Returned (Qltb (binary64 (relative_difference 16666666666666666
                               (Z.of_N 16000000000000000)))
                  (binary64 (1 # 10)))
   /\ (AsWritten.validate spread_50 found_50 = Returned true ->
       within_tolerance (inject_Z 16666666666666666)
                        (inject_Z (Z.of_N 16000000000000000)) (1 # 10))
   /\ (within_tolerance (inject_Z 16666666666666666)
                        (inject_Z (Z.of_N 16000000000000000)) ((1 # 10) - 2 ^ (-56)) ->
       AsWritten.validate spread_50 found_50 = Returned true))
  /\ AsWritten.validate uni_down found_50 = Returned false
  /\ AsWritten.validate_loop spread_50 [found_50; opp_09] [] =
     Returned (List.filter (passes spread_50) [found_50; opp_09]).
Proof.
  assert (Hrange : 0 < 16666666666666666 <= 2 ^ 1023) by (split; [lia|discriminate]).
  split; [|split].
  - apply (proj1 (C5_validation_tolerance spread_50 found_50 16666666666666666
                    eq_refl Hrange) 16000000000000000%N); reflexivity.
  - apply (proj1 (proj2 (C5_validation_tolerance uni_down found_50 16666666666666666
                           eq_refl Hrange))).
    reflexivity.
  - assert (H : AsWritten.validate_loop spread_50 [found_50; opp_09] [] =
                Returned [found_50]) by (vm_compute; reflexivity).
    rewrite H.
    now rewrite <- (proj2 (proj2 (C5_validation_tolerance spread_50 found_50
                                    16666666666666666 eq_refl Hrange)) _ _ H).
Defined.


Lemma Qltb_compat (a a' b b' : Q) :
  (a == a')%Q -> (b == b')%Q -> Qltb a b = Qltb a' b'.
Proof.
  intros Ha Hb. destruct (Qltb a' b') eqn:E.
  - apply Qltb_true. apply Qltb_true in E. now rewrite Ha, Hb.
  - apply Qltb_false. apply Qltb_false in E. now rewrite Ha, Hb.
Qed.

Lemma Qeq_bool_compat (a a' : Q) : (a == a')%Q -> Qeq_bool a 0 = Qeq_bool a' 0.
Proof.
  intros Ha. destruct (Qeq_bool a' 0) eqn:E.
  - apply Qeq_bool_iff. apply Qeq_bool_iff in E. now rewrite Ha.
  - destruct (Qeq_bool a 0) eqn:E'; [|reflexivity].
    apply Qeq_bool_iff in E'. rewrite Ha in E'. apply Qeq_bool_iff in E'. congruence.
Qed.

(** C9.  The tolerance test is symmetric: swapping the local and the
    authoritative profit gives the same outcome of the test the cycle runs
    (pass, fail, or the division error when both are zero), and the same
    truth value of |l - a| / max(l, a) < tolerance for every tolerance. *)
Theorem C9_tolerance_symmetric (l a : Q) :
  profits_agree l a = profits_agree a l
  /\ (forall tolerance, within_tolerance l a tolerance <-> within_tolerance a l tolerance).
Proof.
  assert (Hmax : (Qmax l a == Qmax a l)%Q) by apply Q.max_comm.
  split.
  - unfold profits_agree, truediv.
    rewrite (Qeq_bool_compat _ _ Hmax), (Qabs_Qminus l a).
    destruct (Qeq_bool (Qmax a l) 0); [reflexivity|]. cbn [bind].
    f_equal. apply Qltb_compat; [|reflexivity]. now rewrite Hmax.
  - intros tolerance. unfold within_tolerance.
    rewrite (Qabs_Qminus l a), Hmax. reflexivity.
Qed.

(** *** C6 and C7: the execution coordinator *)

(** C6, at the failing input.  With a balance of 0.5 WETH against an input
    amount of 1 WETH, [execute_opportunity] raises while it builds
    [trade_data]: it returns no insufficient-balance outcome, and it does so
    before the balance is read.  It raises on every call. *)
Theorem C6_insufficient_balance_raises :
  get_token_balance half_ether_balance (AsWritten.token_a found_50)
  < AsWritten.amount_in found_50
  /\ AsWritten.execute_opportunity half_ether_balance AsWritten.new_bot found_50 =
     {| AsWritten.returned := Raised;
        AsWritten.bot_after := AsWritten.new_bot;
        AsWritten.events := [] |}
  /\ (forall ch bot opp,
         AsWritten.returned (AsWritten.execute_opportunity ch bot opp) = Raised
         /\ AsWritten.events (AsWritten.execute_opportunity ch bot opp) = []).
Proof.
  split; [reflexivity|]. split; [apply as_written_execute|].
  intros ch bot opp. now rewrite as_written_execute.
Qed.



Lemma execute_opportunity_outcome (ch : Chain) (bot : Bot) (opp : ArbitrageOpportunity) :
  success (execute_opportunity ch bot opp) = execution_succeeds ch opp
  /\ bot_after (execute_opportunity ch bot opp) =
     if execution_succeeds ch opp then credited bot opp else bot.
Proof.
  unfold execute_opportunity, execution_succeeds, execute_arbitrage.
  destruct (get_token_balance ch (token_a opp) <? amount_in opp) eqn:Hb.
  - assert (Hle : (amount_in opp <=? get_token_balance ch (token_a opp)) = false).
    { apply Z.ltb_lt in Hb. apply Z.leb_gt. exact Hb. }
    rewrite Hle. destruct (executeArbitrage _ _ _ _ _ _ _) as [status|]; cbn.
    + rewrite andb_false_r. split; reflexivity.
    + split; reflexivity.
  - assert (Hle : (amount_in opp <=? get_token_balance ch (token_a opp)) = true).
    { apply Z.ltb_ge in Hb. apply Z.leb_le. exact Hb. }
    rewrite Hle. destruct (executeArbitrage _ _ _ _ _ _ _) as [status|].
    + rewrite andb_true_r. destruct (status =? 1); split; reflexivity.
    + split; reflexivity.
Qed.

(** *** C8 and C10: the confidence score *)

Lemma get_liquidity_nonneg (prices : gmap string PriceEntry) (key : string) :
  (forall k e l, prices !! k = Some e -> liquidity e = Some l -> (0 <= l)%Q) ->
  (0 <= get_liquidity prices key)%Q.
Proof.
  intros H. unfold get_liquidity.
  destruct (prices !! key) as [e|] eqn:Hk; [|discriminate].
  destruct (liquidity e) as [l|] eqn:Hl; [|discriminate].
  exact (H key e l Hk Hl).
Qed.

Lemma clamped_share (x c : Q) :
  (0 <= x)%Q -> (0 < c)%Q -> (0 <= Qmin (x / c) 1)%Q /\ (Qmin (x / c) 1 <= 1)%Q.
Proof.
  intros Hx Hc. split; [|apply Q.le_min_r].
  apply Q.min_glb; [|discriminate].
  apply Qle_shift_div_l; [exact Hc|]. now rewrite Qmult_0_l.
Qed.

(** C8.  For non-negative liquidity figures and a non-negative profit the
    confidence score (liquidity share weighted 0.6, profit share weighted
    0.4, each clamped at 1) lies in the closed interval [0, 1]. *)
Theorem C8_confidence_score_bounds (token_a token_b : string)
        (prices : gmap string PriceEntry) (profit : Q) :
  (forall k e l, prices !! k = Some e -> liquidity e = Some l -> (0 <= l)%Q) ->
  (0 <= profit)%Q ->
  (0 <= _calculate_confidence_score token_a token_b prices profit)%Q
  /\ (_calculate_confidence_score token_a token_b prices profit <= 1)%Q.
Proof.
  intros Hliq Hprofit. unfold _calculate_confidence_score.
  pose proof (get_liquidity_nonneg prices ("uniswap_v2_" +:+ token_a) Hliq) as Hu.
  pose proof (get_liquidity_nonneg prices ("sushiswap_" +:+ token_a) Hliq) as Hs.
  set (total := (get_liquidity prices ("uniswap_v2_" +:+ token_a)
                 + get_liquidity prices ("sushiswap_" +:+ token_a))%Q).
  assert (Htotal : (0 <= total)%Q) by (unfold total; lra).
  destruct (clamped_share total min_liquidity Htotal eq_refl) as [Hl0 Hl1].
  destruct (clamped_share profit (min_profit_threshold * inject_Z (10 ^ 18) * 10)
                          Hprofit eq_refl) as [Hp0 Hp1].
  revert Hl0 Hl1 Hp0 Hp1.
  generalize (Qmin (total / min_liquidity) 1).
  generalize (Qmin (profit / (min_profit_threshold * inject_Z (10 ^ 18) * 10)) 1).
  intros ps ls Hl0 Hl1 Hp0 Hp1. split; lra.
Qed.

Lemma C8_confidence_score_bounds_witness :
  (0 <= _calculate_confidence_score "A" "B" skewed_prices (inject_Z (10 ^ 16)))%Q
  /\ (_calculate_confidence_score "A" "B" skewed_prices (inject_Z (10 ^ 16)) <= 1)%Q.
Proof.
  apply (C8_confidence_score_bounds "A" "B" skewed_prices (inject_Z (10 ^ 16))).
  - intros k e l Hk Hl. unfold skewed_prices in Hk.
    repeat (apply lookup_insert_Some in Hk as [[_ <-]|[_ Hk]];
            [cbn in Hl; injection Hl as <-; discriminate|]).
    now rewrite lookup_empty in Hk.
  - discriminate.
Defined.

(** C10.  Every Opportunity the loop of [monitor_opportunities] builds,
    whatever the sampled prices, the gas estimate and the profit, carries
    the confidence score 0.9; so does every one [monitor_opportunities]
    returns.  The weighted formula is not what is stored: the loop has no
    price table, and for a profit of 16666666666666666 wei the formula gives
    0.4 on the empty one. *)
Theorem C10_confidence_is_constant (ch : Chain) :
  (forall a b u s found o,
      AsWritten.evaluate_prices ch a b u s = Returned found -> In o found ->
      AsWritten.confidence_score o = nearest_float (9 # 10))
  /\ (forall token_pairs opps,
         AsWritten.monitor_opportunities ch token_pairs = Returned opps ->
         Forall (fun o => AsWritten.confidence_score o = nearest_float (9 # 10)) opps)
  /\ AsWritten._calculate_confidence_score TOKENS_WETH TOKENS_USDC ∅
       (Int 16666666666666666) = Returned (nearest_float (4 # 10))
  /\ nearest_float (4 # 10) <> nearest_float (9 # 10).
Proof.
  assert (Hloop : forall a b u s found o,
             AsWritten.evaluate_prices ch a b u s = Returned found -> In o found ->
             AsWritten.confidence_score o = nearest_float (9 # 10)).
  { intros a b u s found o H Hin.
    destruct (as_written_evaluate_prices_inv _ _ _ _ _ _ _ H Hin)
      as (e & g & _ & _ & _ & ->).
    reflexivity. }
  split; [exact Hloop|]. split; [|split].
  - intros token_pairs opps H.
    eapply (as_written_monitor_loop_Forall ch _ Hloop token_pairs [] opps);
      [constructor|exact H].
  - vm_compute. reflexivity.
  - vm_compute. discriminate.
Qed.

Lemma C10_confidence_is_constant_witness :
  AsWritten.confidence_score found_50 = nearest_float (9 # 10)
  /\ AsWritten.confidence_score found_half = nearest_float (9 # 10)
  /\ Forall (fun o => AsWritten.confidence_score o = nearest_float (9 # 10)) [].
Proof.
  split; [|split].
  - apply (proj1 (C10_confidence_is_constant free_gas)
             TOKENS_WETH TOKENS_USDC (Finite 3000) (Finite 3050) [found_50]).
    + vm_compute. reflexivity.
    + now left.
  - apply (proj1 (C10_confidence_is_constant free_gas)
             TOKENS_WETH TOKENS_USDC (Finite 3000) (Finite (30005 # 10)) [found_half]).
    + vm_compute. reflexivity.
    + now left.
  - apply (proj1 (proj2 (C10_confidence_is_constant spread_50)) [weth_usdc]).
    vm_compute. reflexivity.
Defined.


(** ** Further properties of the code *)

(** *** [calculate_arbitrage_opportunity] *)



Lemma get_price_missing (prices : gmap string PriceEntry) (key : string) :
  prices !! key = None
  \/ (exists e, prices !! key = Some e /\ price e = None)
  \/ (exists e p, prices !! key = Some e /\ price e = Some p /\ (p == 0)%Q) ->
  truthy (get_price prices key) = false.
Proof.
  unfold truthy, get_price.
  intros [->|[(e & -> & ->)|(e & p & -> & -> & Hp)]]; [reflexivity|reflexivity|].
  apply Qeq_bool_iff in Hp. now rewrite Hp.
Qed.

(** X2.  When one of the four entries the function looks up is missing from
    the table, has no ['price'], or has a price of zero, the result is
    [None], whatever the other entries, the amount and the chain. *)
Theorem X2_calculate_missing_price (ch : Chain) (a b : string) (amt : Z)
        (prices : gmap string PriceEntry) (key : string) :
  In key ["uniswap_v2_" +:+ a; "uniswap_v2_" +:+ b;
          "sushiswap_" +:+ a; "sushiswap_" +:+ b] ->
  prices !! key = None
  \/ (exists e, prices !! key = Some e /\ price e = None)
  \/ (exists e p, prices !! key = Some e /\ price e = Some p /\ (p == 0)%Q) ->
  calculate_arbitrage_opportunity ch a b amt prices = Returned None.
Proof.
  intros Hkey Hmiss. apply get_price_missing in Hmiss.
  unfold calculate_arbitrage_opportunity. cbn [forallb].
  destruct Hkey as [<-|[<-|[<-|[<-|[]]]]]; rewrite Hmiss;
    rewrite ?andb_false_r; reflexivity.
Qed.

Lemma X2_calculate_missing_price_witness :
  calculate_arbitrage_opportunity free_gas "A" "C" (-20000000000000000) skewed_prices
  = Returned None.
Proof.
  apply (X2_calculate_missing_price free_gas "A" "C" (-20000000000000000)
           skewed_prices ("sushiswap_" +:+ "C")).
  - cbn. auto.
  - left. vm_compute. reflexivity.
Defined.



(** *** [assess_risk] *)

(** X5.  The overall risk [assess_risk] reports is 'high' exactly when the
    gross profit is below twice the gas cost or the gas price exceeds
    50 gwei; otherwise it is 'medium' exactly when the gross profit is below
    three times the gas cost, and 'low' in the remaining case.  The timing
    risk is always 'medium' and the liquidity risk always 'low', and the
    dictionary has its five keys. *)
Theorem X5_assess_risk_overall (ch : Chain) (o : ArbitrageOpportunity) :
  let slippage_high := Qltb (expected_profit o) (inject_Z (gas_cost o * 2)) in
  let slippage_medium := Qltb (expected_profit o) (inject_Z (gas_cost o * 3)) in
  let gas_high := 50000000000 <? Z.of_N (gas_price ch) in
  assess_risk ch o !! "overall_risk"%string =
    Some (if slippage_high || gas_high then "high"%string
          else if slippage_medium then "medium"%string else "low"%string)
  /\ assess_risk ch o !! "slippage_risk"%string =
       Some (if slippage_high then "high"%string
             else if slippage_medium then "medium"%string else "low"%string)
  /\ assess_risk ch o !! "gas_risk"%string =
       Some (if gas_high then "high"%string else "low"%string)
  /\ assess_risk ch o !! "timing_risk"%string = Some "medium"%string
  /\ assess_risk ch o !! "liquidity_risk"%string = Some "low"%string
  /\ size (assess_risk ch o) = 5%nat.
Proof.
  intros slippage_high slippage_medium gas_high.
  unfold assess_risk. change (max_gas_price * 1000000000) with 50000000000.
  fold slippage_high slippage_medium gas_high.
  destruct slippage_high, slippage_medium, gas_high;
    repeat split; vm_compute; reflexivity.
Qed.

(** *** [get_token_prices] *)

Lemma quote_entry_Returned (ch : Chain) (router : string) (path : result (list string))
      (t : string) (e : PriceEntry) :
  quote_entry ch router path t = Returned e ->
  liquidity e = Some 1%Q
  /\ (exists p, price e = Some p /\ (0 <= p)%Q)
  /\ symbol e = Some (last4 t).
Proof.
  unfold quote_entry. intros H. cbv zeta in H.
  destruct (to_checksum_address ch router) as [r|]; [|discriminate].
  destruct path as [p|]; [|discriminate]. cbn [bind] in H.
  destruct (getAmountsOut ch r one_ether p) as [amounts|]; [|discriminate].
  cbn [bind] in H.
  destruct (index amounts 1) as [a1|]; [|discriminate]. cbn [bind] in H.
  destruct (truediv _ _) as [q|] eqn:Hq; [|discriminate].
  injection H as <-. cbn.
  apply truediv_Returned in Hq as [_ ->].
  split; [reflexivity|]. split; [|reflexivity].
  eexists. split; [reflexivity|].
  apply Qle_shift_div_l; [reflexivity|]. rewrite Qmult_0_l.
  change 0%Q with (inject_Z 0). rewrite <- Zle_Qle. lia.
Qed.

Lemma get_token_prices_loop_entries (ch : Chain) (first : string) (all : list string) :
  forall rest prices path,
    (forall t, In t rest -> In t all) ->
    (forall k e, prices !! k = Some e -> sampled_entry all k e) ->
    forall k e,
      get_token_prices_loop ch first rest prices path !! k = Some e ->
      sampled_entry all k e.
Proof.
  induction rest as [|t rest IH]; intros prices path Hin Hinv k e; cbn.
  - apply Hinv.
  - apply IH.
    + intros t' Ht'. apply Hin. now right.
    + clear k e. intros k e.
      assert (Hput : forall (m : gmap string PriceEntry) router pth key,
                 (key = "uniswap_v2_" +:+ t \/ key = "sushiswap_" +:+ t) ->
                 (forall k e, m !! k = Some e -> sampled_entry all k e) ->
                 forall k e,
                   match quote_entry ch router pth t with
                   | Returned e' => <[ key := e' ]> m
                   | Raised => m
                   end !! k = Some e -> sampled_entry all k e).
      { intros m router pth key Hkey Hm k' e'.
        destruct (quote_entry ch router pth t) as [e0|] eqn:Hq; [|apply Hm].
        intros Hk. apply lookup_insert_Some in Hk as [[<- <-]|[_ Hk]]; [|now apply Hm].
        apply quote_entry_Returned in Hq as (Hl & Hp & Hs).
        split; [exact Hl|]. split; [exact Hp|].
        exists t. split; [apply Hin; now left|]. split; assumption. }
      apply Hput; [now right|].
      destruct (build_path ch t first) as [p|]; cbn [bind].
      * apply Hput; [now left|exact Hinv].
      * exact Hinv.
Qed.

Lemma get_token_prices_entries (ch : Chain) (token_addresses : list string)
      (k : string) (e : PriceEntry) :
  get_token_prices ch token_addresses !! k = Some e ->
  sampled_entry token_addresses k e.
Proof.
  unfold get_token_prices. destruct token_addresses as [|first rest].
  - now rewrite lookup_empty.
  - apply get_token_prices_loop_entries; [auto|].
    intros k' e'. now rewrite lookup_empty.
Qed.

(** X6.  Every entry of the table [get_token_prices] returns has liquidity
    1.0 and a non-negative price, carries as symbol the last four characters
    of a token of the input list, and sits under that token's Uniswap or
    Sushiswap key: the table has no other keys. *)
Theorem X6_get_token_prices_entries (ch : Chain) (token_addresses : list string)
        (k : string) (e : PriceEntry) :
  get_token_prices ch token_addresses !! k = Some e ->
  sampled_entry token_addresses k e.
Proof. apply get_token_prices_entries. Qed.

Lemma X6_get_token_prices_entries_witness :
  sampled_entry [TOKENS_WETH; TOKENS_USDC] ("sushiswap_" +:+ TOKENS_USDC)
    {| price := Some (inject_Z 3050000000 / inject_Z one_ether)%Q;
       liquidity := Some 1%Q;
       symbol := Some "E4C8"%string |}.
Proof.
  apply (X6_get_token_prices_entries spread_50 [TOKENS_WETH; TOKENS_USDC]).
  vm_compute. reflexivity.
Defined.

Lemma build_path_bad_first (ch : Chain) (t first : string) :
  to_checksum_address ch first = Raised -> build_path ch t first = Raised.
Proof.
  intros H. unfold build_path.
  destruct (to_checksum_address ch t); cbn [bind]; [|reflexivity].
  now rewrite H.
Qed.

Lemma quote_entry_unbound_path (ch : Chain) (router t : string) :
  quote_entry ch router (read_path None) t = Raised.
Proof.
  unfold quote_entry. cbv zeta.
  destruct (to_checksum_address ch router); reflexivity.
Qed.

Lemma get_token_prices_loop_bad_first (ch : Chain) (first : string) :
  to_checksum_address ch first = Raised ->
  forall rest prices, get_token_prices_loop ch first rest prices None = prices.
Proof.
  intros Hbad. induction rest as [|t rest IH]; intros prices; [reflexivity|].
  cbn [get_token_prices_loop].
  rewrite (build_path_bad_first ch t first Hbad). cbn [bind].
  rewrite quote_entry_unbound_path. apply IH.
Qed.

(** X7.  When the first address of the list is not a valid address,
    [get_token_prices] returns an empty table, whatever the other addresses
    and whatever the routers would quote: no path can be built for any
    token, and the Sushiswap block finds [path] unassigned every time. *)
Theorem X7_get_token_prices_bad_first (ch : Chain) (first : string) (rest : list string) :
  to_checksum_address ch first = Raised ->
  get_token_prices ch (first :: rest) = ∅.
Proof.
  intros Hbad. unfold get_token_prices.
  now apply get_token_prices_loop_bad_first.
Qed.

Lemma X7_get_token_prices_bad_first_witness :
  get_token_prices strict_addresses [not_an_address; TOKENS_WETH; TOKENS_USDC] = ∅.
Proof.
  apply (X7_get_token_prices_bad_first strict_addresses not_an_address
           [TOKENS_WETH; TOKENS_USDC]).
  reflexivity.
Defined.

Lemma key_prefixes_differ (x y : string) :
  "uniswap_v2_" +:+ x <> "sushiswap_" +:+ y.
Proof. cbn. discriminate. Qed.

Lemma uniswap_key_inj (x y : string) :
  "uniswap_v2_" +:+ x = "uniswap_v2_" +:+ y -> x = y.
Proof. intros H. cbv [String.append] in H. now injection H. Qed.

Lemma sushiswap_key_inj (x y : string) :
  "sushiswap_" +:+ x = "sushiswap_" +:+ y -> x = y.
Proof. intros H. cbv [String.append] in H. now injection H. Qed.

Lemma get_token_prices_stale_path (ch : Chain) (t0 t1 c0 : string) :
  t0 <> t1 ->
  to_checksum_address ch t0 = Returned c0 ->
  to_checksum_address ch t1 = Raised ->
  let table := get_token_prices ch [t0; t1] in
  table !! ("uniswap_v2_" +:+ t1) = None
  /\ table !! ("sushiswap_" +:+ t1) =
     match quote_entry ch routers_sushiswap (Returned [c0; c0]) t1 with
     | Returned e => Some e
     | Raised => None
     end
  /\ table !! ("sushiswap_" +:+ t0) =
     match quote_entry ch routers_sushiswap (Returned [c0; c0]) t0 with
     | Returned e => Some e
     | Raised => None
     end.
Proof.
  intros Hne H0 H1 table. unfold table, get_token_prices.
  cbn [get_token_prices_loop].
  assert (Hp0 : build_path ch t0 t0 = Returned [c0; c0])
    by (unfold build_path; now rewrite H0).
  assert (Hp1 : build_path ch t1 t0 = Raised)
    by (unfold build_path; now rewrite H1).
  rewrite Hp0, Hp1. cbn [bind read_path].
  assert (Hk1 : "uniswap_v2_" +:+ t0 <> "uniswap_v2_" +:+ t1)
    by (intros E; apply uniswap_key_inj in E; contradiction).
  assert (Hk2 : "sushiswap_" +:+ t0 <> "sushiswap_" +:+ t1)
    by (intros E; apply sushiswap_key_inj in E; contradiction).
  assert (Hk3 : "sushiswap_" +:+ t1 <> "sushiswap_" +:+ t0) by congruence.
  pose proof (key_prefixes_differ t0 t1) as Hk4.
  pose proof (key_prefixes_differ t1 t0) as Hk5.
  pose proof (key_prefixes_differ t1 t1) as Hk6.
  pose proof (key_prefixes_differ t0 t0) as Hk7.
  destruct (quote_entry ch routers_uniswap (Returned [c0; c0]) t0) as [eu|];
    destruct (quote_entry ch routers_sushiswap (Returned [c0; c0]) t0) as [es0|];
    destruct (quote_entry ch routers_sushiswap (Returned [c0; c0]) t1) as [es1|];
    repeat split;
    repeat first
      [ rewrite lookup_insert_eq
      | rewrite lookup_insert_ne by congruence
      | rewrite lookup_empty ];
    reflexivity.
Qed.

(** X8.  When the address of the second token is not valid, the Uniswap
    block stores nothing for it, and the Sushiswap block still runs with the
    path left over from the first token: the table's Sushiswap entry for the
    second token is the quote for the path (first, first), the same quote
    stored for the first token. *)
Theorem X8_get_token_prices_stale_path (ch : Chain) (t0 t1 c0 : string) :
  t0 <> t1 ->
  to_checksum_address ch t0 = Returned c0 ->
  to_checksum_address ch t1 = Raised ->
  let table := get_token_prices ch [t0; t1] in
  table !! ("uniswap_v2_" +:+ t1) = None
  /\ table !! ("sushiswap_" +:+ t1) =
     match quote_entry ch routers_sushiswap (Returned [c0; c0]) t1 with
     | Returned e => Some e
     | Raised => None
     end
  /\ table !! ("sushiswap_" +:+ t0) =
     match quote_entry ch routers_sushiswap (Returned [c0; c0]) t0 with
     | Returned e => Some e
     | Raised => None
     end.
Proof. apply get_token_prices_stale_path. Qed.

Lemma X8_get_token_prices_stale_path_witness :
  let table := get_token_prices strict_addresses [TOKENS_WETH; not_an_address] in
  table !! ("uniswap_v2_" +:+ not_an_address) = None
  /\ table !! ("sushiswap_" +:+ not_an_address) =
     match quote_entry strict_addresses routers_sushiswap
                       (Returned [TOKENS_WETH; TOKENS_WETH]) not_an_address with
     | Returned e => Some e
     | Raised => None
     end
  /\ table !! ("sushiswap_" +:+ TOKENS_WETH) =
     match quote_entry strict_addresses routers_sushiswap
                       (Returned [TOKENS_WETH; TOKENS_WETH]) TOKENS_WETH with
     | Returned e => Some e
     | Raised => None
     end.
Proof.
  apply (X8_get_token_prices_stale_path strict_addresses TOKENS_WETH not_an_address
           TOKENS_WETH).
  - discriminate.
  - reflexivity.
  - reflexivity.
Defined.

Lemma get_liquidity_sampled (ch : Chain) (token_addresses : list string) (key : string) :
  (get_liquidity (get_token_prices ch token_addresses) key <= 1)%Q.
Proof.
  unfold get_liquidity.
  destruct (get_token_prices ch token_addresses !! key) as [e|] eqn:Hk; [|discriminate].
  apply get_token_prices_entries in Hk as (-> & _). discriminate.
Qed.

(** X10.  On a table returned by [get_token_prices] the confidence score
    stays below the 0.7 of [CONFIDENCE_THRESHOLD] for every profit: with a
    liquidity of 1.0 per entry the liquidity share is at most 2/10000. *)
Theorem X10_sampled_table_confidence (ch : Chain) (token_addresses : list string)
        (a b : string) (profit : Q) :
  (_calculate_confidence_score a b (get_token_prices ch token_addresses) profit
   < CONFIDENCE_THRESHOLD)%Q.
Proof.
  unfold _calculate_confidence_score.
  pose proof (get_liquidity_sampled ch token_addresses ("uniswap_v2_" +:+ a)) as Hu.
  pose proof (get_liquidity_sampled ch token_addresses ("sushiswap_" +:+ a)) as Hs.
  set (total := (get_liquidity (get_token_prices ch token_addresses)
                               ("uniswap_v2_" +:+ a)
                 + get_liquidity (get_token_prices ch token_addresses)
                                 ("sushiswap_" +:+ a))%Q).
  assert (Hshare : (Qmin (total / min_liquidity) 1 <= 2 # 10000)%Q).
  { eapply Qle_trans; [apply Q.le_min_l|].
    apply Qle_shift_div_r; [reflexivity|]. unfold total, min_liquidity. lra. }
  pose proof (Q.le_min_r (profit / (min_profit_threshold * inject_Z (10 ^ 18) * 10)) 1)
    as Hprofit.
  revert Hshare Hprofit.
  generalize (Qmin (total / min_liquidity) 1).
  generalize (Qmin (profit / (min_profit_threshold * inject_Z (10 ^ 18) * 10)) 1).
  intros ps ls Hshare Hprofit. unfold CONFIDENCE_THRESHOLD. lra.
Qed.

(** *** [run_arbitrage_cycle] *)

Lemma price_difference_percent_Raised (u s : Q) :
  price_difference_percent u s = Raised <-> (Qmin u s == 0)%Q.
Proof.
  unfold price_difference_percent, truediv.
  destruct (Qeq_bool (Qmin u s) 0) eqn:E; cbn [bind].
  - apply Qeq_bool_iff in E. tauto.
  - split; [discriminate|]. intros H. apply Qeq_bool_iff in H. congruence.
Qed.

Lemma log_all_prices_Raised (ch : Chain) (token_pairs : list (string * string)) :
  log_all_prices ch token_pairs = Raised <-> Exists (zero_price ch) token_pairs.
Proof.
  induction token_pairs as [|token_pair rest IH]; cbn [log_all_prices].
  - split; [discriminate|]. intros H. inversion H.
  - rewrite List.Exists_cons. unfold zero_price at 1.
    destruct (get_current_prices ch token_pair) as [u s]. cbn [fst snd].
    destruct (price_difference_percent u s) eqn:E; cbn [bind].
    + rewrite IH. split; [now right|]. intros [H|H]; [|exact H].
      apply price_difference_percent_Raised in H. congruence.
    + apply price_difference_percent_Raised in E. tauto.
Qed.

Lemma run_arbitrage_cycle_Raised_bot (ch : Chain) (bot : Bot)
      (token_pairs : list (string * string)) :
  Exists (zero_price ch) token_pairs ->
  run_arbitrage_cycle ch bot token_pairs = (bot, Raised).
Proof.
  intros H. apply log_all_prices_Raised in H.
  unfold run_arbitrage_cycle. now rewrite H.
Qed.

(** X11.  [run_arbitrage_cycle] raises as soon as, for some monitored
    pair, the lower of the two sampled prices is zero, which is the case
    when one quote of the pair fails; the exception comes from the
    percentage of the price log, before any opportunity is looked for, and
    the counters are left as they were.  As the files stand every sampled
    price is zero: the cycle raises for every pair list but the empty one,
    for which it returns no opportunity. *)
Theorem X11_cycle_raises_on_zero_price (ch : Chain) (bot : Bot)
        (token_pairs : list (string * string)) :
  (Exists (zero_price ch) token_pairs ->
   run_arbitrage_cycle ch bot token_pairs = (bot, Raised))
  /\ (forall a b,
         side_quote ch routers_uniswap a b = Raised
         \/ side_quote ch routers_sushiswap a b = Raised ->
         zero_price ch (a, b))
  /\ (forall counters,
         AsWritten.run_arbitrage_cycle ch counters token_pairs =
         (counters, match token_pairs with [] => Returned [] | _ :: _ => Raised end)).
Proof.
  split; [apply run_arbitrage_cycle_Raised_bot|]. split.
  - intros a b H. unfold zero_price.
    now rewrite (get_current_prices_failed ch a b H).
  - intros counters. apply as_written_cycle.
Qed.

Lemma X11_cycle_raises_on_zero_price_witness :
  run_arbitrage_cycle uni_down new_bot [weth_usdc] = (new_bot, Raised).
Proof.
  apply (proj1 (X11_cycle_raises_on_zero_price uni_down new_bot [weth_usdc])).
  constructor. vm_compute. reflexivity.
Defined.


(** *** The execution loop *)

Lemma execute_profitable_gain (calls : list (Chain * ArbitrageOpportunity)) :
  forall bot,
    let bot' := fst (execute_profitable bot calls) in
    executed_trades bot <= executed_trades bot'
    /\ (total_profit bot
        + inject_Z (10 ^ 15) * inject_Z (executed_trades bot' - executed_trades bot)
        <= total_profit bot')%Q.
Proof.
  induction calls as [|[ch opp] rest IH]; intros bot; cbn [execute_profitable].
  - cbn. split; [lia|]. rewrite Z.sub_diag. change (inject_Z 0) with 0%Q. lra.
  - destruct (worth_executing opp) eqn:Hw; [|apply IH].
    specialize (IH (bot_after (execute_opportunity ch bot opp))).
    destruct (execute_profitable (bot_after (execute_opportunity ch bot opp)) rest)
      as [bot' evs].
    cbn [fst] in *. cbv zeta in IH. destruct IH as [IHt IHp].
    rewrite (proj2 (execute_opportunity_outcome ch bot opp)) in IHt, IHp.
    destruct (execution_succeeds ch opp); [|split; assumption].
    cbn [credited executed_trades total_profit] in IHt, IHp.
    split; [lia|].
    apply Qltb_true in Hw. change 1000000000000000 with (10 ^ 15) in Hw.
    replace (executed_trades bot' - executed_trades bot)
      with ((executed_trades bot' - (executed_trades bot + 1)) + 1) by lia.
    rewrite inject_Z_plus. change (inject_Z 1) with 1%Q.
    revert IHp Hw.
    generalize (inject_Z (executed_trades bot' - (executed_trades bot + 1))).
    generalize (inject_Z (10 ^ 15)).
    intros c d IHp Hw.
    rewrite Qmult_plus_distr_r, Qmult_1_r. lra.
Qed.

(** X15.  The execution loop of [run_bot] never lowers the counters, and
    every trade it counts adds more than 10^15 wei: the cumulative profit
    grows by at least 10^15 wei (0.001 ETH) times the number of trades
    counted. *)
Theorem X15_each_trade_above_gate (bot : Bot) (calls : list (Chain * ArbitrageOpportunity)) :
  executed_trades bot <= executed_trades (fst (execute_profitable bot calls))
  /\ (total_profit bot
      + inject_Z (10 ^ 15)
        * inject_Z (executed_trades (fst (execute_profitable bot calls))
                    - executed_trades bot)
      <= total_profit (fst (execute_profitable bot calls)))%Q.
Proof. exact (execute_profitable_gain calls bot). Qed.

(** *** [run_bot] *)

Lemma run_arbitrage_cycle_counters (ch : Chain) (bot : Bot)
      (token_pairs : list (string * string)) :
  executed_trades (fst (run_arbitrage_cycle ch bot token_pairs)) = executed_trades bot
  /\ total_profit (fst (run_arbitrage_cycle ch bot token_pairs)) = total_profit bot.
Proof.
  unfold run_arbitrage_cycle.
  destruct (log_all_prices ch token_pairs); [|split; reflexivity].
  destruct (monitor_opportunities ch token_pairs) as [[|o rest]|]; split; reflexivity.
Qed.

Lemma run_bot_loop_bounds (env : nat -> Chain) (token_pairs : list (string * string)) :
  forall fuel n bot done,
    let r := run_bot_loop env token_pairs fuel n bot done in
    (n <= snd (fst r) <= n + fuel)%nat
    /\ executed_trades bot <= executed_trades (fst (fst r))
    /\ (total_profit bot
        + inject_Z (10 ^ 15)
          * inject_Z (executed_trades (fst (fst r)) - executed_trades bot)
        <= total_profit (fst (fst r)))%Q.
Proof.
  induction fuel as [|fuel IH]; intros n bot done; cbn [run_bot_loop].
  - cbn. split; [lia|]. split; [lia|].
    rewrite Z.sub_diag. change (inject_Z 0) with 0%Q. lra.
  - destruct (run_arbitrage_cycle_counters (env n) bot token_pairs) as [Ht Hp].
    destruct (run_arbitrage_cycle (env n) bot token_pairs) as [bot1 [opps|]].
    + cbn [fst] in Ht, Hp.
      pose proof (execute_profitable_gain (map (fun o => (env n, o)) opps) bot1)
        as Hgain.
      destruct (execute_profitable bot1 (map (fun o => (env n, o)) opps))
        as [bot2 evs].
      cbn [fst] in Hgain. cbv zeta in Hgain. destruct Hgain as [Hg1 Hg2].
      specialize (IH (S n) bot2 (done ++ evs)). cbv zeta in IH.
      destruct IH as (Hn & Ht' & Hp').
      set (r := run_bot_loop env token_pairs fuel (S n) bot2 (done ++ evs)) in *.
      cbv zeta. split; [lia|]. split; [lia|].
      rewrite Ht in Hg1, Hg2. rewrite Hp in Hg2.
      replace (executed_trades (fst (fst r)) - executed_trades bot)
        with ((executed_trades (fst (fst r)) - executed_trades bot2)
              + (executed_trades bot2 - executed_trades bot)) by lia.
      rewrite inject_Z_plus, Qmult_plus_distr_r.
      revert Hg2 Hp'.
      generalize (inject_Z (10 ^ 15)
                  * inject_Z (executed_trades (fst (fst r)) - executed_trades bot2))%Q.
      generalize (inject_Z (10 ^ 15)
                  * inject_Z (executed_trades bot2 - executed_trades bot))%Q.
      intros x y Hg2 Hp'. lra.
    + cbn [fst snd] in *. split; [lia|]. rewrite Ht, Hp. split; [lia|].
      rewrite Z.sub_diag. change (inject_Z 0) with 0%Q. lra.
Qed.

(** X16.  [run_bot] runs at most [max_cycles] cycles and none when
    [max_cycles] is zero or negative, in which case the counters are
    untouched and nothing is submitted; over the whole run the trade
    counter never decreases and the cumulative profit grows by at least
    10^15 wei per trade counted. *)
Theorem X16_run_bot_bounds (env : nat -> Chain) (token_pairs : list (string * string))
        (max_cycles : Z) (bot : Bot) :
  let r := run_bot env token_pairs max_cycles bot in
  Z.of_nat (snd (fst r)) <= Z.max 0 max_cycles
  /\ executed_trades bot <= executed_trades (fst (fst r))
  /\ (total_profit bot
      + inject_Z (10 ^ 15)
        * inject_Z (executed_trades (fst (fst r)) - executed_trades bot)
      <= total_profit (fst (fst r)))%Q
  /\ (max_cycles <= 0 -> r = (bot, 0%nat, [])).
Proof.
  unfold run_bot. cbv zeta.
  destruct (run_bot_loop_bounds env token_pairs (Z.to_nat max_cycles) 0 bot [])
    as (Hn & Ht & Hp).
  split; [lia|]. split; [exact Ht|]. split; [exact Hp|].
  intros Hmax. replace (Z.to_nat max_cycles) with 0%nat by lia. reflexivity.
Qed.

Lemma X16_run_bot_bounds_witness :
  run_bot (fun _ => spread_50) [weth_usdc] 0 new_bot = (new_bot, 0%nat, []).
Proof.
  apply (X16_run_bot_bounds (fun _ => spread_50) [weth_usdc] 0 new_bot).
  lia.
Defined.

Lemma run_bot_loop_stops (env : nat -> Chain) (token_pairs : list (string * string))
      (fuel n : nat) (bot : Bot) (done : list event) :
  Exists (zero_price (env n)) token_pairs ->
  run_bot_loop env token_pairs (S fuel) n bot done = (bot, S n, done).
Proof.
  intros H. cbn [run_bot_loop].
  now rewrite (run_arbitrage_cycle_Raised_bot (env n) bot token_pairs H).
Qed.

(** X17.  [run_bot] ends at the first cycle in which some monitored pair
    samples a zero price (a failed quote is one): that cycle is counted, the
    counters and the trace stay as they were when it began, and no later
    cycle runs, however many were allowed and whatever the chain would
    answer afterwards. *)
Theorem X17_run_bot_stops_on_zero_price (env : nat -> Chain)
        (token_pairs : list (string * string)) :
  (forall fuel n bot done,
      Exists (zero_price (env n)) token_pairs ->
      run_bot_loop env token_pairs (S fuel) n bot done = (bot, S n, done))
  /\ (forall max_cycles bot,
         0 < max_cycles ->
         Exists (zero_price (env 0%nat)) token_pairs ->
         run_bot env token_pairs max_cycles bot = (bot, 1%nat, [])).
Proof.
  split.
  - intros fuel n bot done. apply run_bot_loop_stops.
  - intros max_cycles bot Hmax H. unfold run_bot.
    destruct (Z.to_nat max_cycles) as [|fuel] eqn:E; [lia|].
    now apply run_bot_loop_stops.
Qed.

Lemma X17_run_bot_stops_on_zero_price_witness :
  run_bot (fun n => match n with O => uni_down | S _ => spread_50 end)
          [weth_usdc] 5 new_bot
  = (new_bot, 1%nat, []).
Proof.
  apply (proj2 (X17_run_bot_stops_on_zero_price
                  (fun n => match n with O => uni_down | S _ => spread_50 end)
                  [weth_usdc])).
  - lia.
  - constructor. vm_compute. reflexivity.
Defined.

(** *** The price log *)

Import ArbitrageLogger.

Lemma save_price_data_ok (lg : Logger) (later : Clock) :
  (forall f content, files lg !! f = Some content -> file_ok content) ->
  logger_ok (save_price_data lg later)
  /\ price_data (save_price_data lg later) = []
  /\ log_dir (save_price_data lg later) = log_dir lg
  /\ forall f old,
      files lg !! f = Some old ->
      exists more, files (save_price_data lg later) !! f = Some (old ++ map Row more).
Proof.
  intros Hfiles. unfold save_price_data. cbn [price_data files log_dir].
  split; [split|split; [reflexivity|split; [reflexivity|]]].
  - cbn. lia.
  - intros f content Hf. cbn [files] in Hf.
    apply lookup_insert_Some in Hf as [[_ <-]|[_ Hf]].
    + destruct (files lg !! price_file lg later) as [old|] eqn:Hold.
      * destruct (Hfiles _ _ Hold) as [rows ->].
        exists (rows ++ price_data lg). now rewrite map_app.
      * now exists (price_data lg).
    + now apply (Hfiles f).
  - intros f old Hf. destruct (decide (price_file lg later = f)) as [<-|Hne].
    + exists (price_data lg). now rewrite lookup_insert_eq, Hf.
    + exists []. rewrite lookup_insert_ne by exact Hne. now rewrite app_nil_r.
Qed.

Lemma log_prices_step (lg lg' : Logger) (now later : Clock) (pair : string * string)
      (u s : Q) :
  log_prices lg now later pair u s = Returned lg' ->
  logger_ok lg ->
  logger_ok lg'
  /\ log_dir lg' = log_dir lg
  /\ length (price_data lg') = ((length (price_data lg) + 1) mod 100)%nat
  /\ forall f old,
      files lg !! f = Some old ->
      exists more, files lg' !! f = Some (old ++ map Row more).
Proof.
  unfold log_prices. intros H [Hlen Hfiles].
  destruct (truediv _ _) as [r|]; [|discriminate]. cbn [bind] in H.
  cbn [price_data] in H. rewrite length_app in H. cbn [length] in H.
  destruct (100 <=? length (price_data lg) + 1)%nat eqn:Hfull; injection H as <-.
  - apply Nat.leb_le in Hfull.
    match goal with
    | |- context [save_price_data ?l later] =>
        destruct (save_price_data_ok l later Hfiles) as (Hok & Hbuf & Hdir & Happ)
    end.
    split; [exact Hok|]. split; [exact Hdir|]. split; [|exact Happ].
    rewrite Hbuf. cbn [length].
    replace (length (price_data lg) + 1)%nat with 100%nat by lia. reflexivity.
  - apply Nat.leb_gt in Hfull. cbn [price_data files log_dir].
    split; [split|split; [reflexivity|split]].
    + cbn [price_data]. rewrite length_app. cbn. lia.
    + exact Hfiles.
    + rewrite length_app. cbn [length]. symmetry. apply Nat.mod_small. lia.
    + intros f old Hf. exists []. now rewrite app_nil_r.
Qed.

Lemma log_prices_Returned_iff (lg : Logger) (c : PriceCall) :
  call_ok c = true <->
  exists lg', log_prices lg (call_now c) (call_later c) (call_pair c)
                         (call_uni c) (call_sushi c) = Returned lg'.
Proof.
  unfold call_ok, log_prices, truediv.
  destruct (Qeq_bool (Qmin (call_uni c) (call_sushi c)) 0); cbn [negb bind].
  - split; [discriminate|]. intros [lg' H]. discriminate.
  - split; [|reflexivity]. intros _. destruct (_ <=? _)%nat; eexists; reflexivity.
Qed.

Lemma log_many_ok (calls : list PriceCall) :
  forall lg,
    logger_ok lg ->
    logger_ok (log_many lg calls)
    /\ log_dir (log_many lg calls) = log_dir lg
    /\ length (price_data (log_many lg calls)) =
       ((length (price_data lg) + length (List.filter call_ok calls)) mod 100)%nat
    /\ forall f old,
        files lg !! f = Some old ->
        exists more, files (log_many lg calls) !! f = Some (old ++ map Row more).
Proof.
  induction calls as [|c rest IH]; intros lg Hok; cbn [log_many List.filter].
  - split; [exact Hok|]. split; [reflexivity|]. split.
    + cbn [length]. rewrite Nat.add_0_r. symmetry. apply Nat.mod_small. apply Hok.
    + intros f old Hf. exists []. now rewrite app_nil_r.
  - destruct (log_prices lg (call_now c) (call_later c) (call_pair c)
                         (call_uni c) (call_sushi c)) as [lg'|] eqn:Hstep.
    + assert (Hc : call_ok c = true)
        by (apply (log_prices_Returned_iff lg); eexists; exact Hstep).
      rewrite Hc.
      destruct (log_prices_step _ _ _ _ _ _ _ Hstep Hok) as (Hok' & Hdir & Hlen & Happ).
      destruct (IH lg' Hok') as (Hok'' & Hdir' & Hlen' & Happ').
      split; [exact Hok''|]. split; [congruence|]. split.
      * rewrite Hlen', Hlen. cbn [length].
        rewrite Nat.Div0.add_mod_idemp_l. f_equal. lia.
      * intros f old Hf. destruct (Happ f old Hf) as [more1 H1].
        destruct (Happ' f _ H1) as [more2 H2].
        exists (more1 ++ more2). now rewrite H2, map_app, app_assoc.
    + assert (Hc : call_ok c = false).
      { destruct (call_ok c) eqn:E; [|reflexivity].
        apply (log_prices_Returned_iff lg) in E as [lg' E]. congruence. }
      rewrite Hc. apply IH. exact Hok.
Qed.

(** X18.  Whatever sequence of [log_prices] calls is made, the logger keeps
    fewer than 100 entries in memory, every price file consists of one
    header line followed by rows only, and files are append-only: what a
    file held before is a prefix of what it holds afterwards. *)
Theorem X18_price_log_invariant (lg : Logger) (calls : list PriceCall) :
  logger_ok lg ->
  logger_ok (log_many lg calls)
  /\ forall f old,
      files lg !! f = Some old ->
      exists more, files (log_many lg calls) !! f = Some (old ++ map Row more).
Proof.
  intros Hok. destruct (log_many_ok calls lg Hok) as (H1 & _ & _ & H2).
  split; assumption.
Qed.

(** X19.  Starting from an empty buffer, after any sequence of calls the
    number of entries held in memory is the number of calls that computed
    their percentage (those with a non-zero lower price) modulo 100: the
    buffer is written out and emptied at every hundredth entry, and a call
    that raises adds nothing. *)
Theorem X19_price_log_buffer_length (dir : string) (calls : list PriceCall) :
  length (price_data (log_many (new_logger dir) calls)) =
  (length (List.filter call_ok calls) mod 100)%nat.
Proof.
  assert (Hok : logger_ok (new_logger dir)).
  { split; [cbn; lia|]. intros f content Hf. cbn in Hf.
    now rewrite lookup_empty in Hf. }
  destruct (log_many_ok calls (new_logger dir) Hok) as (_ & _ & H & _).
  exact H.
Qed.

Lemma X18_price_log_invariant_witness :
  logger_ok (log_many (new_logger "logs")
               [mkPriceCall (mkClock "2025-01-01T00:00:00" "20250101")
                            (mkClock "2025-01-01T00:00:00" "20250101")
                            weth_usdc 3000 3050])
  /\ forall f old,
      files (new_logger "logs") !! f = Some old ->
      exists more,
        files (log_many (new_logger "logs")
                 [mkPriceCall (mkClock "2025-01-01T00:00:00" "20250101")
                              (mkClock "2025-01-01T00:00:00" "20250101")
                              weth_usdc 3000 3050]) !! f
        = Some (old ++ map Row more).
Proof.
  apply (X18_price_log_invariant (new_logger "logs")).
  split; [cbn; lia|]. intros f content Hf. cbn in Hf.
  now rewrite lookup_empty in Hf.
Defined.
